(** * Building-clearance simulator: the clearance geometry and margin engine

    A shallow embedding of the numeric core of
    [clearance_app_v22_font_fixed.py] (classes [ClearanceModelV22] and
    [ExcelAccurateCalculatorV22]) and of the two widening functions of
    [building_limit_calculator_fixed.py].

    Numbers.  Python [float] values are read as real numbers ([R]) with
    exact arithmetic; [float('inf')] is kept as a separate value
    ([pyfloat]).  Python [int] results ([math.ceil], [math.floor]) are [Z].
    [math.sqrt] is only ever called on a radicand that the surrounding
    code has made non-negative, so the total [sqrt] of the real-number
    library stands for it.  Exceptions are [None]. *)

From Stdlib Require Import String Reals Lra Lia List ZArith Bool Zfloor.
Import ListNotations.
Open Scope R_scope.

(** ** Python values *)

(** A Python float that may be [float('inf')]. *)
Inductive pyfloat : Type :=
| Fin (r : R)
| Inf.

(** Comparisons, as booleans. *)
Definition Rltb (a b : R) : bool := if Rlt_dec a b then true else false.
Definition Rleb (a b : R) : bool := if Rle_dec a b then true else false.
Definition Reqb (a b : R) : bool := if Req_dec_T a b then true else false.

(** [x < c], [x <= c] for a possibly infinite [x] and [d < m] for a
    possibly infinite [m]. *)
Definition fl_ltb (x : pyfloat) (c : R) : bool :=
  match x with Fin r => Rltb r c | Inf => false end.
Definition fl_leb (x : pyfloat) (c : R) : bool :=
  match x with Fin r => Rleb r c | Inf => false end.
Definition ltb_fl (d : R) (m : pyfloat) : bool :=
  match m with Fin r => Rltb d r | Inf => true end.

(** An operation that sends [inf] to [inf] ([x**2 - 25], [math.sqrt]). *)
Definition fl_lift (f : R -> R) (x : pyfloat) : pyfloat :=
  match x with Fin r => Fin (f r) | Inf => Inf end.

(** [math.ceil] and [math.floor]: an [int], or [OverflowError] on [inf]. *)
Definition math_ceil (x : pyfloat) : option Z :=
  match x with Fin r => Some (Zceil r) | Inf => None end.
Definition math_floor (x : pyfloat) : option Z :=
  match x with Fin r => Some (Zfloor r) | Inf => None end.

(** [x + c] for a possibly infinite [x]. *)
Definition fl_add (x : pyfloat) (c : R) : pyfloat :=
  match x with Fin r => Fin (r + c) | Inf => Inf end.

(** [min(m, x)] for a possibly infinite running minimum [m]. *)
Definition fl_min (m : pyfloat) (x : R) : pyfloat :=
  match m with Fin v => Fin (Rmin v x) | Inf => Fin x end.

(** [x % m] on floats, for a positive [m]: the result lies in [[0, m)]. *)
Definition py_fmod (x m : R) : R := x - IZR (Zfloor (x / m)) * m.

(** [math.atan2(y, x)]. *)
Definition atan2 (y x : R) : R :=
  if Rlt_dec 0 x then atan (y / x)
  else if Rlt_dec x 0 then
         (if Rle_dec 0 y then atan (y / x) + PI else atan (y / x) - PI)
       else if Rlt_dec 0 y then PI / 2
            else if Rlt_dec y 0 then - (PI / 2) else 0.

(** [np.linspace(start, stop, num)]: [num] evenly spaced samples, both ends
    included. *)
Definition linspace (start stop : R) (num : nat) : list R :=
  map (fun i => start + INR i * ((stop - start) / INR (num - 1))) (seq 0 num).

(** The slice [l[1:-1]]. *)
Definition slice_1_m1 {A : Type} (l : list A) : list A := removelast (tl l).

(** ** class ClearanceModelV22 *)

Module ClearanceModelV22.

Definition rail_gauge : R := 1067.

Definition calculate_base_clearance_at_height (height : R) : pyfloat :=
  if Rlt_dec height 0 then Inf
  else if Rlt_dec height 25 then Fin 1225
  else if Rlt_dec height 375 then
    Fin (1225 + (height - 25) * (1575 - 1225) / (375 - 25))
  else if Rlt_dec height 920 then Fin 1575
  else if Rlt_dec height 3156 then Fin 1900
  else if Rlt_dec height 3823 then
    let discriminant := 2150 ^ 2 - (height - 2150) ^ 2 in
    if Rlt_dec discriminant 0 then Fin 0 else Fin (sqrt discriminant)
  else if Rlt_dec height 5190 then Fin 1350
  else
    let discriminant := 1800 ^ 2 - (height - 4000) ^ 2 in
    if Rlt_dec discriminant 0 then Fin 0 else Fin (sqrt discriminant).

Definition calculate_cant_correction (height cant_mm : R) : R :=
  if Req_dec_T cant_mm 0 then 0
  else
    let cant_angle := atan (cant_mm / rail_gauge) in
    height * sin cant_angle.

Definition calculate_curve_widening (curve_radius_m : R) : R :=
  if Req_dec_T curve_radius_m 0 then 0
  else 23000 / curve_radius_m.

(** The pieces of the right-hand outline, in the order the code appends
    them. *)
Definition slope_points : list (R * R) :=
  map (fun h => (1225 + (h - 25) * (1575 - 1225) / (375 - 25), h))
      (linspace 25 375 10).

Definition arc_points : list (R * R) :=
  flat_map (fun h =>
              let discriminant := 2150 ^ 2 - (h - 2150) ^ 2 in
              if Rle_dec 0 discriminant then [(sqrt discriminant, h)]
              else [])
           (linspace 3156 3823 100).

Definition upper_arc_points : list (R * R) :=
  let center_x := 0 in
  let center_y := 4000 in
  let radius := 1800 in
  let x_boundary := 1350 in
  let discriminant := radius ^ 2 - x_boundary ^ 2 in
  if Rle_dec 0 discriminant then
    let y_intersect := center_y + sqrt discriminant in
    let start_angle := atan2 (y_intersect - center_y) (x_boundary - center_x) in
    let end_angle := PI / 2 in
    flat_map (fun i =>
                let angle :=
                  start_angle + (end_angle - start_angle) * INR i / 29 in
                let x := center_x + radius * cos angle in
                let y := center_y + radius * sin angle in
                if Rleb (Rabs x) 1350 && Rleb y 5700 && Rleb 4000 y
                then [(x, y)] else [])
             (seq 0 30)
  else [].

(** [points] as it stands when the mirroring starts. *)
Definition outline_points : list (R * R) :=
  [(1225, 0); (1225, 25)]
    ++ slope_points
    ++ [(1575, 920); (1900, 920); (1900, 3156)]
    ++ arc_points
    ++ [(1350, 3823); (1350, 4300)]
    ++ upper_arc_points
    ++ [(1350, 5700); (-1350, 5700)].

Definition create_accurate_clearance : list (R * R) :=
  let points := outline_points in
  let right_points := filter (fun p => Rltb 0 (fst p)) points in
  let right_points := rev right_points in
  let points :=
    points ++ map (fun p => (- fst p, snd p)) (slice_1_m1 right_points) in
  points ++ [(1225, 0)].

Definition calculate_required_clearance (height cant_mm curve_radius_m : R)
  : pyfloat :=
  let base_clearance := calculate_base_clearance_at_height height in
  let cant_correction := calculate_cant_correction height cant_mm in
  let curve_widening := calculate_curve_widening curve_radius_m in
  fl_add (fl_add base_clearance cant_correction) curve_widening.

(** The body of the loop of [transform_clearance_excel_display_method]:
    columns A,B (base), L,M (widened), O,P (moved), R,S,T (polar), W,X
    (rotated), AA,AB (back to Cartesian), then the change of origin. *)
Definition transform_vertex (widening cant_angle measurement_distance : R)
           (pt : R * R) : R * R :=
  let '(x_base, y_base) := pt in
  let a_coord := x_base in
  let b_coord := y_base in
  let l_coord :=
    if negb (Reqb a_coord 0) then
      (if Rltb 0 a_coord then a_coord + widening else a_coord - widening)
    else 0 in
  let m_coord := b_coord in
  let o_coord := l_coord + measurement_distance in
  let p_coord := m_coord in
  let r_coord := sqrt (o_coord ^ 2 + p_coord ^ 2) in
  let s_coord :=
    if Reqb o_coord 0 && Reqb p_coord 0 then 0
    else if Reqb o_coord 0 && Rltb 0 p_coord then PI / 2
    else if Reqb o_coord 0 && Rltb p_coord 0 then - PI / 2
    else atan (p_coord / o_coord) in
  let t_coord :=
    if Rleb 0 o_coord && Rleb 0 p_coord then s_coord
    else if Rltb o_coord 0 && Rleb 0 p_coord then s_coord + PI
    else if Rltb o_coord 0 && Rltb p_coord 0 then s_coord + PI
    else s_coord + 2 * PI in
  let w_coord := r_coord in
  let x_coord := t_coord + cant_angle in
  let x_coord :=
    if Rleb (2 * PI) x_coord then py_fmod x_coord (2 * PI) else x_coord in
  let excel_aa_coord := w_coord * cos x_coord in
  let excel_ab_coord := w_coord * sin x_coord in
  let app_x_coord := excel_aa_coord - measurement_distance in
  let app_y_coord := excel_ab_coord in
  (app_x_coord, app_y_coord).

Definition transform_clearance_excel_display_method
           (points : list (R * R))
           (cant_mm curve_radius_m measurement_distance : R) : list (R * R) :=
  match points with
  | [] => []
  | _ =>
    let widening :=
      if Rlt_dec 0 curve_radius_m
      then calculate_curve_widening curve_radius_m else 0 in
    let cant_angle :=
      if negb (Reqb cant_mm 0) then atan (cant_mm / rail_gauge) else 0 in
    map (transform_vertex widening cant_angle measurement_distance) points
  end.

End ClearanceModelV22.

(** ** class ExcelAccurateCalculatorV22 *)

Module ExcelAccurateCalculatorV22.

Definition rail_gauge : R := 1067.

(** The loop of [_create_clearance_data_with_widening].  The local
    [base_clearance] survives from one iteration to the next; the branch
    [height < 0] does not assign it, and reading it while unbound is an
    [UnboundLocalError]. *)
Fixpoint clearance_data_loop (widening : R) (base_clearance : option R)
         (heights : list R) : option (list (R * R)) :=
  match heights with
  | [] => Some []
  | height :: rest =>
    let base_clearance :=
      if Rlt_dec height 0 then base_clearance
      else if Rlt_dec height 25 then Some 1225
      else if Rlt_dec height 375 then
        Some (1225 + (height - 25) * (1575 - 1225) / (375 - 25))
      else if Rlt_dec height 920 then Some 1575
      else if Rlt_dec height 3156 then Some 1900
      else if Rlt_dec height 3823 then
        let discriminant := 2150 ^ 2 - (height - 2150) ^ 2 in
        if Rlt_dec discriminant 0 then Some 0 else Some (sqrt discriminant)
      else if Rlt_dec height 5190 then Some 1350
      else
        let discriminant := 1800 ^ 2 - (height - 4000) ^ 2 in
        if Rlt_dec discriminant 0 then Some 0 else Some (sqrt discriminant)
    in
    match base_clearance with
    | None => None
    | Some b =>
      let clearance_with_widening := b + widening in
      option_map (cons (clearance_with_widening, height))
                 (clearance_data_loop widening base_clearance rest)
    end
  end.

Definition _create_clearance_data_with_widening (curve_radius_m : R)
  : option (list (R * R)) :=
  let heights := linspace 0 5700 1775 in
  let widening :=
    if Rlt_dec 0 curve_radius_m then 23000 / curve_radius_m else 0 in
  clearance_data_loop widening None heights.

Definition coordinate_transform_to_rail_center
           (measurement_distance measurement_height cant_mm : R) : R * R :=
  if Req_dec_T cant_mm 0 then (measurement_distance, measurement_height)
  else
    let cant_angle := atan (cant_mm / rail_gauge) in
    let x_coord := measurement_distance - measurement_height * sin cant_angle in
    let y_coord := measurement_height * cos cant_angle in
    (x_coord, y_coord).

Definition calculate_required_clearance_excel_method
           (measurement_distance measurement_height cant_mm curve_radius_m : R)
  : R :=
  let '(x_coord, y_coord) :=
    coordinate_transform_to_rail_center
      measurement_distance measurement_height cant_mm in
  let widening :=
    if Rlt_dec 0 curve_radius_m then 23000 / curve_radius_m else 0 in
  let cant_correction :=
    if Req_dec_T cant_mm 0 then 0
    else
      let cant_angle := atan (cant_mm / rail_gauge) in
      measurement_height * sin cant_angle in
  let yd := y_coord in
  let base_clearance :=
    if Rlt_dec yd 25 then
      (if Rle_dec yd 350 then 1225 + yd else 1225 + 350)
    else if Rlt_dec yd 375 then
      (if Rle_dec yd 350 then 1225 + yd else 1225 + 350)
    else if Rlt_dec yd 920 then 1575
    else if Rlt_dec yd 3156 then 1900
    else if Rlt_dec yd 3823 then
      let discriminant := 2150 ^ 2 - (yd - 2150) ^ 2 in
      if Rlt_dec discriminant 0 then 0 else sqrt discriminant
    else if Rlt_dec yd 5190 then 1350
    else
      let discriminant := 1800 ^ 2 - (yd - 4000) ^ 2 in
      if Rlt_dec discriminant 0 then 0 else sqrt discriminant in
  base_clearance + widening + cant_correction.

(** The minimum search of [calculate_ag2_excel_method], started at
    [float('inf')]. *)
Definition ag2_step (rail_x rail_y : R) (min_distance : pyfloat)
           (c : R * R) : pyfloat :=
  let '(clearance_x, clearance_y) := c in
  let dx := rail_x - clearance_x in
  let dy := rail_y - clearance_y in
  let distance := sqrt (dx ^ 2 + dy ^ 2) in
  if ltb_fl distance min_distance then Fin distance else min_distance.

Definition calculate_ag2_excel_method
           (measurement_distance measurement_height cant_mm curve_radius_m : R)
  : option pyfloat :=
  let '(rail_x, rail_y) :=
    coordinate_transform_to_rail_center
      measurement_distance measurement_height cant_mm in
  match _create_clearance_data_with_widening curve_radius_m with
  | None => None
  | Some clearance_data_with_widening =>
    Some (fold_left (ag2_step rail_x rail_y) clearance_data_with_widening Inf)
  end.

Definition _is_point_inside_building_clearance (x y curve_radius_m : R)
  : bool :=
  if Rltb y 0 || Rltb 5700 y then false
  else
    let widening :=
      if Rlt_dec 0 curve_radius_m then 23000 / curve_radius_m else 0 in
    let clearance_limit :=
      if Rlt_dec y 25 then 1225
      else if Rlt_dec y 375 then
        1225 + (y - 25) * (1575 - 1225) / (375 - 25)
      else if Rlt_dec y 920 then 1575
      else if Rlt_dec y 3156 then 1900
      else if Rlt_dec y 3823 then
        let discriminant := 2150 ^ 2 - (y - 2150) ^ 2 in
        if Rlt_dec discriminant 0 then 0 else sqrt discriminant
      else if Rlt_dec y 5190 then 1350
      else
        let discriminant := 1800 ^ 2 - (y - 4000) ^ 2 in
        if Rlt_dec discriminant 0 then 0 else sqrt discriminant in
    let clearance_limit_with_widening := clearance_limit + widening in
    Rltb (Rabs x) clearance_limit_with_widening.

(** The dictionary returned by [calculate_clearance_margin_excel_method]
    (the display string [correction_method] is left out). *)
Record MarginResult : Type := mkMarginResult {
  ag2 : pyfloat;
  corrected_margin : pyfloat;
  final_margin : Z;
  is_interference : bool;
  rail_center_coords : R * R;
  is_inside_clearance : bool
}.

Definition calculate_clearance_margin_excel_method
           (measurement_distance measurement_height cant_mm curve_radius_m : R)
  : option MarginResult :=
  match calculate_ag2_excel_method
          measurement_distance measurement_height cant_mm curve_radius_m with
  | None => None
  | Some ag2 =>
    let '(rail_x, rail_y) :=
      coordinate_transform_to_rail_center
        measurement_distance measurement_height cant_mm in
    let corrected_margin :=
      if fl_ltb ag2 5 then Fin 0
      else if fl_ltb ag2 13 then
        fl_lift (fun a => sqrt (a ^ 2 - 25)) ag2
      else ag2 in
    let is_inside_clearance :=
      _is_point_inside_building_clearance rail_x rail_y curve_radius_m in
    let is_interference :=
      is_inside_clearance || fl_ltb ag2 5 || fl_leb corrected_margin 0 in
    let final_margin :=
      if is_interference then math_ceil corrected_margin
      else math_floor corrected_margin in
    match final_margin with
    | None => None
    | Some final_margin =>
      Some {| ag2 := ag2;
              corrected_margin := corrected_margin;
              final_margin := final_margin;
              is_interference := is_interference;
              rail_center_coords := (rail_x, rail_y);
              is_inside_clearance := is_inside_clearance |}
    end
  end.

(** The dictionary returned by [calculate_all_excel_method]; the four
    inputs it echoes are left out. *)
Record AllResult : Type := mkAllResult {
  required_clearance : R;
  clearance_margin : Z;
  ag2_distance : pyfloat;
  all_is_interference : bool;
  details : MarginResult
}.

Definition calculate_all_excel_method
           (measurement_distance measurement_height cant_mm curve_radius_m : R)
  : option AllResult :=
  let required_clearance :=
    calculate_required_clearance_excel_method
      measurement_distance measurement_height cant_mm curve_radius_m in
  match calculate_clearance_margin_excel_method
          measurement_distance measurement_height cant_mm curve_radius_m with
  | None => None
  | Some margin_result =>
    Some {| required_clearance := required_clearance;
            clearance_margin := final_margin margin_result;
            ag2_distance := ag2 margin_result;
            all_is_interference := is_interference margin_result;
            details := margin_result |}
  end.

End ExcelAccurateCalculatorV22.

(** ** class BuildingLimitCalculatorFixed *)

Module BuildingLimitCalculatorFixed.

Definition calculate_expansion_width (radius : R) : R :=
  if Reqb radius 0 || Rltb 10000 radius then 0
  else 23100 / radius.

Definition calculate_upper_expansion_width (radius : R) : R :=
  if Reqb radius 0 || Rltb 10000 radius then 0
  else 11550 / radius.

Definition gauge : R := 1067.

(** The coordinate table of [load_basic_building_limit_data]
    ([1366.5] is written [2733 / 2], and so on). *)
Definition standard_coordinates : list (R * R) :=
  [(-1225, 0); (-1575, 350); (-1575, 920); (-1900, 920);
   (-1900, 1900); (-1900, 2150); (- (2733 / 2), 3156);
   (- (2733 / 2), 25953 / 5);
   (- (2083 / 2), 25953 / 5); (- (1383 / 2), 25953 / 5);
   (-375, 25953 / 5); (-25, 25953 / 5);
   (0, 25953 / 5); (25, 25953 / 5); (375, 25953 / 5);
   (1383 / 2, 25953 / 5);
   (2083 / 2, 25953 / 5); (2733 / 2, 25953 / 5); (2733 / 2, 3156);
   (1900, 2150);
   (1900, 1900); (1900, 920); (1575, 920); (1575, 350); (1225, 0);
   (0, 0); (-1225, 0)].

Definition load_basic_building_limit_data (electrification_type : string)
  : list (R * R) :=
  if String.eqb electrification_type "交流"%string then
    map (fun p => (fst p, if Rlt_dec (snd p) 5000 then snd p
                          else snd p + 1000))
        standard_coordinates
  else standard_coordinates.

Definition calculate_cant_angle (cant : R) : R :=
  if Rlt_dec cant 0 then atan (cant / gauge) + 2 * PI
  else atan (cant / gauge).

Definition calculate_slack (radius : R) : R :=
  if Rlt_dec radius 200 then 20
  else if Rlt_dec radius 240 then 15
  else if Rlt_dec radius 320 then 10
  else if Rle_dec radius 440 then 5
  else 0.

Definition calculate_displacement (x y cant : R) : R * R :=
  if Req_dec_T cant 0 then (x, y)
  else
    let cant_angle := calculate_cant_angle cant in
    let cos_angle := cos cant_angle in
    let sin_angle := sin cant_angle in
    let Li := x - (y - y * cos_angle) in
    let Hi := y - (x * cos_angle - y * sin_angle) in
    (Li, Hi).

Section WithCoordinates.

(** The field [self.basic_coordinates]. *)
Variable basic_coordinates : list (R * R).

(** The body of the loop of [calculate_transformed_coordinates]. *)
Definition transform_coordinate (expansion_width slack cant : R)
           (pt : R * R) : R * R :=
  let '(x, y) := pt in
  let expanded_x :=
    if Rltb 0 x then x + expansion_width
    else if Rltb x 0 then x - expansion_width
    else x in
  let expanded_y := y in
  let '(Li, Hi) := calculate_displacement expanded_x expanded_y cant in
  let final_x :=
    if Rltb 0 x then Li + slack / 2
    else if Rltb x 0 then Li - slack / 2
    else Li in
  let final_y := Hi in
  (final_x, final_y).

Definition calculate_transformed_coordinates (radius cant : R)
  : list (R * R) * list (R * R) :=
  let expansion_width := calculate_expansion_width radius in
  let slack := calculate_slack radius in
  let basic_coords := basic_coordinates in
  let transformed_coords :=
    map (transform_coordinate expansion_width slack cant) basic_coordinates in
  (basic_coords, transformed_coords).

(** The loop of [calculate_required_clearance_at_height] over the
    consecutive pairs of vertices. *)
Fixpoint crossing_scan (height : R) (min_x : pyfloat)
         (transformed_coords : list (R * R)) : pyfloat :=
  match transformed_coords with
  | (x1, y1) :: (((x2, y2) :: _) as rest) =>
    let min_x :=
      if Rleb (Rmin y1 y2) height && Rleb height (Rmax y1 y2)
         && negb (Reqb y1 y2)
      then
        let t := (height - y1) / (y2 - y1) in
        let x_at_height := x1 + t * (x2 - x1) in
        if Rltb 0 x_at_height then fl_min min_x x_at_height else min_x
      else min_x in
    crossing_scan height min_x rest
  | _ => min_x
  end.

Definition calculate_required_clearance_at_height (height radius cant : R)
  : R :=
  let '(basic_coords, transformed_coords) :=
    calculate_transformed_coordinates radius cant in
  let min_x := crossing_scan height Inf transformed_coords in
  match min_x with Fin v => v | Inf => 0 end.

Definition calculate_clearance_margin
           (measurement_distance measurement_height radius cant : R) : R :=
  let required_clearance :=
    calculate_required_clearance_at_height measurement_height radius cant in
  if Rle_dec 0 measurement_distance then
    measurement_distance - required_clearance
  else
    Rabs measurement_distance - Rabs required_clearance.

(** The nearest-vertex search of [check_clearance]. *)
Definition nearest_step (measurement_distance measurement_height : R)
           (st : pyfloat * option (R * R)) (pt : R * R)
  : pyfloat * option (R * R) :=
  let '(min_distance, nearest_point) := st in
  let '(x, y) := pt in
  let distance :=
    sqrt ((x - measurement_distance) ^ 2 + (y - measurement_height) ^ 2) in
  if ltb_fl distance min_distance then (Fin distance, Some (x, y))
  else (min_distance, nearest_point).

(** The dictionary returned by [check_clearance]. *)
Record CheckResult : Type := mkCheckResult {
  chk_is_interference : bool;
  chk_status : string;
  chk_min_distance : pyfloat;
  chk_nearest_point : option (R * R);
  chk_basic_coordinates : list (R * R);
  chk_transformed_coordinates : list (R * R);
  chk_measurement_point : R * R;
  chk_expansion_width : R;
  chk_cant_angle : R;
  chk_slack : R;
  chk_required_clearance : R;
  chk_clearance_margin : R
}.

Definition check_clearance
           (measurement_distance measurement_height radius cant : R)
  : CheckResult :=
  let '(basic_coords, transformed_coords) :=
    calculate_transformed_coordinates radius cant in
  let required_clearance :=
    calculate_required_clearance_at_height measurement_height radius cant in
  let clearance_margin :=
    calculate_clearance_margin
      measurement_distance measurement_height radius cant in
  let is_interference := Rltb clearance_margin 0 in
  let '(min_distance, nearest_point) :=
    fold_left (nearest_step measurement_distance measurement_height)
              transformed_coords (Inf, None) in
  {| chk_is_interference := is_interference;
     chk_status := if is_interference then "支障"%string else "安全"%string;
     chk_min_distance := min_distance;
     chk_nearest_point := nearest_point;
     chk_basic_coordinates := basic_coords;
     chk_transformed_coordinates := transformed_coords;
     chk_measurement_point := (measurement_distance, measurement_height);
     chk_expansion_width := calculate_expansion_width radius;
     chk_cant_angle := calculate_cant_angle cant;
     chk_slack := calculate_slack radius;
     chk_required_clearance := required_clearance;
     chk_clearance_margin := clearance_margin |}.

End WithCoordinates.

End BuildingLimitCalculatorFixed.

(** ** class NumericKeypad *)

Module NumericKeypad.

(** A Python [str] as the sequence of its code points. *)
Definition pystr : Type := list N.

Definition pystr_eqb (a b : pystr) : bool :=
  if list_eq_dec N.eq_dec a b then true else false.

Definition char_zero : N := 48.   (* '0' *)
Definition char_minus : N := 45.  (* '-' *)
Definition char_dot : N := 46.    (* '.' *)

(** The button labels that [create_widgets] binds to [button_click]: 'C',
    the sign key, the backspace key, the ten digits, '.', and the confirm
    key. *)
Inductive button : Type :=
| BtnClear
| BtnSign
| BtnBackspace
| BtnDigit (d : N)
| BtnDot
| BtnConfirm.

(** The label of a digit key: the character ['0' + d]. *)
Definition digit_text (d : N) : pystr := [(char_zero + d)%N].

Definition startswith_minus (current : pystr) : bool :=
  match current with
  | c :: _ => N.eqb c char_minus
  | [] => false
  end.

(** The value of [display_var] after [button_click(text)], as a function of
    its value [current] before.  The confirm key leaves the display as it is
    (it writes to the entry widget and closes the window). *)
Definition button_click (allow_negative : bool) (text : button)
           (current : pystr) : pystr :=
  match text with
  | BtnClear => [char_zero]
  | BtnBackspace =>
    if (1 <? List.length current)%nat then removelast current
    else [char_zero]
  | BtnSign =>
    if allow_negative then
      if negb (pystr_eqb current [char_zero]) then
        if startswith_minus current then tl current
        else char_minus :: current
      else current
    else current
  | BtnDot =>
    if negb (existsb (N.eqb char_dot) current) then current ++ [char_dot]
    else current
  | BtnConfirm => current
  | BtnDigit d =>
    if pystr_eqb current [char_zero] then digit_text d
    else current ++ digit_text d
  end.

End NumericKeypad.

(** ** Notions used by the statements *)

Import ClearanceModelV22 ExcelAccurateCalculatorV22 BuildingLimitCalculatorFixed.

(** The chain of height bands shared by [calculate_base_clearance_at_height]
    (after its [height < 0] test), by the sampling loop and by the
    inside test. *)
Definition base_profile (h : R) : R :=
  if Rlt_dec h 25 then 1225
  else if Rlt_dec h 375 then 1225 + (h - 25) * (1575 - 1225) / (375 - 25)
  else if Rlt_dec h 920 then 1575
  else if Rlt_dec h 3156 then 1900
  else if Rlt_dec h 3823 then
    (if Rlt_dec (2150 ^ 2 - (h - 2150) ^ 2) 0 then 0
     else sqrt (2150 ^ 2 - (h - 2150) ^ 2))
  else if Rlt_dec h 5190 then 1350
  else
    (if Rlt_dec (1800 ^ 2 - (h - 4000) ^ 2) 0 then 0
     else sqrt (1800 ^ 2 - (h - 4000) ^ 2)).

(** The widening the evaluator adds in line. *)
Definition inline_widening (curve_radius_m : R) : R :=
  if Rlt_dec 0 curve_radius_m then 23000 / curve_radius_m else 0.

(** Distance from the rail-centre point to one sample. *)
Definition sample_distance (rail_x rail_y : R) (c : R * R) : R :=
  sqrt ((rail_x - fst c) ^ 2 + (rail_y - snd c) ^ 2).

(** One-sided limits of a height function at a band boundary [b]. *)
Definition is_left_limit (f : R -> pyfloat) (b l : R) : Prop :=
  forall eps, 0 < eps ->
    exists delta, 0 < delta /\
      forall h, b - delta < h < b ->
        exists v, f h = Fin v /\ Rabs (v - l) < eps.

Definition is_right_limit (f : R -> pyfloat) (b l : R) : Prop :=
  forall eps, 0 < eps ->
    exists delta, 0 < delta /\
      forall h, b < h < b + delta ->
        exists v, f h = Fin v /\ Rabs (v - l) < eps.

(** Both one-sided limits exist at [b] and are closer than [tol]. *)
Definition limits_agree_within (f : R -> pyfloat) (tol b : R) : Prop :=
  exists l r, is_left_limit f b l /\ is_right_limit f b r /\ Rabs (l - r) < tol.

(** Everything the code appends between the first vertex and the two top
    corners. *)
Definition outline_body : list (R * R) :=
  [(1225, 25)]
    ++ slope_points
    ++ [(1575, 920); (1900, 920); (1900, 3156)]
    ++ arc_points
    ++ [(1350, 3823); (1350, 4300)]
    ++ upper_arc_points.

Definition mirror (p : R * R) : R * R := (- fst p, snd p).

(** Lateral widening of one coordinate: outward by [w] on either side, a
    coordinate on the centre line stays. *)
Definition widen_coordinate (w x : R) : R :=
  if Rlt_dec 0 x then x + w else if Rlt_dec x 0 then x - w else x.

(** Rotation of [(o, p)] by the angle [theta] about the origin. *)
Definition rotate (theta : R) (q : R * R) : R * R :=
  (fst q * cos theta - snd q * sin theta,
   fst q * sin theta + snd q * cos theta).

(** A display text of the keypad in its normal shape: an optional leading
    minus sign, then digits with at most one decimal point. *)
Definition display_body (current : NumericKeypad.pystr) : NumericKeypad.pystr :=
  if NumericKeypad.startswith_minus current then tl current else current.

Definition digit_or_dot (c : N) : Prop :=
  (48 <= c <= 57)%N \/ c = NumericKeypad.char_dot.

Definition display_ok (current : NumericKeypad.pystr) : Prop :=
  Forall digit_or_dot (display_body current) /\
  (count_occ N.eq_dec (display_body current) NumericKeypad.char_dot <= 1)%nat.

(** A key that the keypad really has: a digit key carries one of 0..9. *)
Definition real_key (text : NumericKeypad.button) : Prop :=
  match text with
  | NumericKeypad.BtnDigit d => (d < 10)%N
  | _ => True
  end.

Definition segment_boundaries : list R := [25; 375; 920; 3156; 3823; 5190].

(** * Proofs *)

(** Case analysis on every comparison in sight, closing what linear
    arithmetic closes. *)
Ltac rcases :=
  repeat match goal with
         | |- context [Rlt_dec ?a ?b] => destruct (Rlt_dec a b)
         | |- context [Rle_dec ?a ?b] => destruct (Rle_dec a b)
         | |- context [Req_dec_T ?a ?b] => destruct (Req_dec_T a b)
         end; try reflexivity; try lra.

Lemma Rltb_true (a b : R) : Rltb a b = true <-> a < b.
Proof. unfold Rltb; destruct (Rlt_dec a b); split; intros; try easy. Qed.

Lemma Rltb_false (a b : R) : Rltb a b = false <-> b <= a.
Proof.
  unfold Rltb; destruct (Rlt_dec a b); split; intros; try easy; lra.
Qed.

Lemma Rleb_true (a b : R) : Rleb a b = true <-> a <= b.
Proof. unfold Rleb; destruct (Rle_dec a b); split; intros; try easy. Qed.

Lemma Rleb_false (a b : R) : Rleb a b = false <-> b < a.
Proof.
  unfold Rleb; destruct (Rle_dec a b); split; intros; try easy; lra.
Qed.

Lemma Reqb_true (a b : R) : Reqb a b = true <-> a = b.
Proof. unfold Reqb; destruct (Req_dec_T a b); split; intros; try easy. Qed.

(** ** The three copies of the band chain agree *)

Lemma base_clearance_nonneg (h : R) :
  0 <= h -> calculate_base_clearance_at_height h = Fin (base_profile h).
Proof.
  intros Hh; unfold calculate_base_clearance_at_height, base_profile.
  destruct (Rlt_dec h 0); [lra|].
  repeat (match goal with
          | |- context [Rlt_dec ?a ?b] => destruct (Rlt_dec a b)
          end; try reflexivity).
Qed.

Lemma base_clearance_negative (h : R) :
  h < 0 -> calculate_base_clearance_at_height h = Inf.
Proof.
  intros Hh; unfold calculate_base_clearance_at_height.
  destruct (Rlt_dec h 0); [reflexivity | lra].
Qed.

Lemma inside_in_range (x y r : R) :
  0 <= y <= 5700 ->
  _is_point_inside_building_clearance x y r
  = Rltb (Rabs x) (base_profile y + inline_widening r).
Proof.
  intros [H0 H1]; unfold _is_point_inside_building_clearance.
  assert (E0 : Rltb y 0 = false) by (apply Rltb_false; lra).
  assert (E1 : Rltb 5700 y = false) by (apply Rltb_false; lra).
  rewrite E0, E1; reflexivity.
Qed.

Lemma inside_out_of_range (x y r : R) :
  y < 0 \/ 5700 < y -> _is_point_inside_building_clearance x y r = false.
Proof.
  intros H; unfold _is_point_inside_building_clearance.
  destruct H as [H | H].
  - assert (E : Rltb y 0 = true) by (apply Rltb_true; lra).
    rewrite E; reflexivity.
  - assert (E : Rltb 5700 y = true) by (apply Rltb_true; lra).
    rewrite E, orb_true_r; reflexivity.
Qed.

(** ** The sampled reference data *)

Lemma clearance_data_loop_nonneg (w : R) (hs : list R) :
  Forall (fun h => 0 <= h) hs ->
  forall b, clearance_data_loop w b hs
            = Some (map (fun h => (base_profile h + w, h)) hs).
Proof.
  induction 1 as [| h hs Hh _ IH]; intros b; [reflexivity|].
  cbn [clearance_data_loop map].
  destruct (Rlt_dec h 0); [lra|].
  unfold base_profile at 1.
  repeat (match goal with
          | |- context [Rlt_dec ?a ?b] => destruct (Rlt_dec a b)
          end; try (rewrite IH; reflexivity)).
Qed.

Lemma linspace_from_nonneg (stop : R) (num : nat) (lo : R) :
  lo <= stop -> (1 < num)%nat ->
  Forall (fun h => lo <= h) (linspace lo stop num).
Proof.
  intros Hs Hn; unfold linspace; apply Forall_forall; intros h Hin.
  apply in_map_iff in Hin; destruct Hin as [i [<- _]].
  assert (0 < INR (num - 1)) by (apply lt_0_INR; lia).
  assert (0 <= INR i) by apply pos_INR.
  assert (0 <= (stop - lo) / INR (num - 1)).
  { apply Rmult_le_pos; [lra|]. left; apply Rinv_0_lt_compat; assumption. }
  nra.
Qed.

(** The first sample is [start] and the last one is [stop], as
    [np.linspace] has it. *)
Lemma linspace_endpoints (a b : R) (n : nat) :
  (1 < n)%nat ->
  nth 0 (linspace a b n) 0 = a /\ nth (n - 1) (linspace a b n) 0 = b.
Proof.
  intros Hn; unfold linspace.
  assert (HI : 0 < INR (n - 1)) by (apply lt_0_INR; lia).
  set (f := fun i : nat => a + INR i * ((b - a) / INR (n - 1))).
  split.
  - rewrite (nth_indep _ 0 (f 0%nat)) by (rewrite length_map, length_seq; lia).
    rewrite map_nth, seq_nth by lia; unfold f; cbn [Nat.add INR]; lra.
  - rewrite (nth_indep _ 0 (f 0%nat)) by (rewrite length_map, length_seq; lia).
    rewrite map_nth, seq_nth by lia; unfold f; cbn [Nat.add].
    field; lra.
Qed.

Lemma clearance_data_value (r : R) :
  _create_clearance_data_with_widening r
  = Some (map (fun h => (base_profile h + inline_widening r, h))
              (linspace 0 5700 1775)).
Proof.
  unfold _create_clearance_data_with_widening.
  apply clearance_data_loop_nonneg.
  apply linspace_from_nonneg; [lra | lia].
Qed.

(** ** The minimum search *)

Lemma ag2_step_distance (x y : R) (m : pyfloat) (c : R * R) :
  ag2_step x y m c
  = if ltb_fl (sample_distance x y c) m then Fin (sample_distance x y c) else m.
Proof. destruct c; reflexivity. Qed.

Lemma fold_ag2_from_finite (x y : R) (l : list (R * R)) :
  forall v, exists v', fold_left (ag2_step x y) l (Fin v) = Fin v' /\ v' <= v.
Proof.
  induction l as [| c l IH]; intros v; cbn [fold_left].
  - exists v; split; [reflexivity | lra].
  - rewrite ag2_step_distance; cbn [ltb_fl]; unfold Rltb.
    destruct (Rlt_dec (sample_distance x y c) v) as [Hlt | Hge].
    + destruct (IH (sample_distance x y c)) as [v' [E Hle]].
      exists v'; split; [exact E | lra].
    + apply IH.
Qed.

Lemma fold_ag2_lower_bound (x y : R) (l : list (R * R)) :
  forall m c, In c l ->
    exists v, fold_left (ag2_step x y) l m = Fin v /\ v <= sample_distance x y c.
Proof.
  induction l as [| a l IH]; intros m c Hin; [destruct Hin|].
  cbn [fold_left]; destruct Hin as [-> | Hin]; [| apply IH; exact Hin].
  rewrite ag2_step_distance.
  destruct m as [v |]; cbn [ltb_fl]; unfold Rltb.
  - destruct (Rlt_dec (sample_distance x y c) v) as [Hlt | Hge].
    + apply fold_ag2_from_finite.
    + destruct (fold_ag2_from_finite x y l v) as [v' [E Hle]].
      exists v'; split; [exact E | lra].
  - apply fold_ag2_from_finite.
Qed.

Lemma fold_ag2_attained (x y : R) (l : list (R * R)) :
  forall m,
    fold_left (ag2_step x y) l m = m
    \/ exists c, In c l /\ fold_left (ag2_step x y) l m = Fin (sample_distance x y c).
Proof.
  induction l as [| a l IH]; intros m; cbn [fold_left]; [left; reflexivity|].
  rewrite ag2_step_distance.
  destruct (ltb_fl (sample_distance x y a) m).
  - destruct (IH (Fin (sample_distance x y a))) as [E | [c [Hin E]]].
    + right; exists a; split; [left; reflexivity | exact E].
    + right; exists c; split; [right; exact Hin | exact E].
  - destruct (IH m) as [E | [c [Hin E]]].
    + left; exact E.
    + right; exists c; split; [right; exact Hin | exact E].
Qed.

Lemma linspace_length (a b : R) (n : nat) : length (linspace a b n) = n.
Proof. unfold linspace; rewrite length_map, length_seq; reflexivity. Qed.

(** The raw nearest distance is always a finite, non-negative number: the
    least of the distances to the 1775 samples. *)
Lemma ag2_value (d h c r : R) :
  exists a,
    calculate_ag2_excel_method d h c r = Some (Fin a) /\
    0 <= a /\
    (forall p, In p (map (fun h => (base_profile h + inline_widening r, h))
                         (linspace 0 5700 1775)) ->
               a <= sample_distance (fst (coordinate_transform_to_rail_center d h c))
                                    (snd (coordinate_transform_to_rail_center d h c)) p) /\
    (exists p, In p (map (fun h => (base_profile h + inline_widening r, h))
                         (linspace 0 5700 1775)) /\
               a = sample_distance (fst (coordinate_transform_to_rail_center d h c))
                                   (snd (coordinate_transform_to_rail_center d h c)) p).
Proof.
  unfold calculate_ag2_excel_method.
  destruct (coordinate_transform_to_rail_center d h c) as [rx ry]; cbn [fst snd].
  rewrite clearance_data_value.
  set (l := map _ _).
  assert (Hne : l <> []).
  { intros E; apply (f_equal (@length _)) in E; unfold l in E.
    rewrite length_map, linspace_length in E; discriminate E. }
  destruct (fold_ag2_attained rx ry l Inf) as [E | [p [Hin E]]].
  - destruct l as [| p l']; [contradiction Hne; reflexivity|].
    destruct (fold_ag2_lower_bound rx ry (p :: l') Inf p (or_introl eq_refl))
      as [v [E' _]].
    rewrite E in E'; discriminate E'.
  - exists (sample_distance rx ry p); rewrite E; repeat split.
    + apply sqrt_pos.
    + intros q Hq.
      destruct (fold_ag2_lower_bound rx ry l Inf q Hq) as [v [E' Hle]].
      rewrite E in E'; injection E' as <-; exact Hle.
    + exists p; split; [exact Hin | reflexivity].
Qed.

(** The radicand of the middle tier is never negative, so its
    [math.sqrt] cannot raise. *)
Lemma tier_radicand_nonneg (a : R) : 5 <= a -> 0 <= a ^ 2 - 25.
Proof. intros Ha; nra. Qed.

(** Every evaluation returns a result record. *)
Lemma margin_total (d h c r : R) :
  exists res a,
    calculate_clearance_margin_excel_method d h c r = Some res /\
    calculate_ag2_excel_method d h c r = Some (Fin a) /\
    0 <= a /\
    ag2 res = Fin a /\
    corrected_margin res
    = (if Rlt_dec a 5 then Fin 0
       else if Rlt_dec a 13 then Fin (sqrt (a ^ 2 - 25)) else Fin a) /\
    is_inside_clearance res
    = _is_point_inside_building_clearance
        (fst (coordinate_transform_to_rail_center d h c))
        (snd (coordinate_transform_to_rail_center d h c)) r /\
    is_interference res
    = is_inside_clearance res || fl_ltb (ag2 res) 5
      || fl_leb (corrected_margin res) 0 /\
    Some (final_margin res)
    = (if is_interference res then math_ceil (corrected_margin res)
       else math_floor (corrected_margin res)).
Proof.
  destruct (ag2_value d h c r) as [a [Ea [Ha _]]].
  unfold calculate_clearance_margin_excel_method; rewrite Ea.
  destruct (coordinate_transform_to_rail_center d h c) as [rx ry]; cbn [fst snd].
  remember (if fl_ltb (Fin a) 5 then Fin 0
            else if fl_ltb (Fin a) 13
                 then fl_lift (fun a0 => sqrt (a0 ^ 2 - 25)) (Fin a)
                 else Fin a) as corr eqn:Hcorr.
  assert (Hc : corr = if Rlt_dec a 5 then Fin 0
                      else if Rlt_dec a 13 then Fin (sqrt (a ^ 2 - 25))
                           else Fin a).
  { rewrite Hcorr; unfold fl_ltb, Rltb.
    destruct (Rlt_dec a 5); [reflexivity|].
    destruct (Rlt_dec a 13); reflexivity. }
  assert (Hv : exists v, corr = Fin v).
  { rewrite Hc; destruct (Rlt_dec a 5); [| destruct (Rlt_dec a 13)];
      eexists; reflexivity. }
  destruct Hv as [v Ev]; clear Hcorr; rewrite Ev in *.
  cbn [math_ceil math_floor].
  match goal with
  | |- context [if ?b then Some (Zceil v) else Some (Zfloor v)] =>
    destruct b eqn:Eb
  end;
    eexists; exists a; (split; [reflexivity|]);
      cbn [ag2 corrected_margin final_margin is_interference
           is_inside_clearance math_ceil math_floor];
      rewrite ?Eb; repeat split; try reflexivity; try assumption.
Qed.

Lemma all_total (d h c r : R) :
  exists res m,
    calculate_all_excel_method d h c r = Some res /\
    calculate_clearance_margin_excel_method d h c r = Some m /\
    details res = m /\
    required_clearance res = calculate_required_clearance_excel_method d h c r /\
    clearance_margin res = final_margin m /\
    ag2_distance res = ag2 m /\
    all_is_interference res = is_interference m.
Proof.
  destruct (margin_total d h c r) as [m [a [Em _]]].
  unfold calculate_all_excel_method; rewrite Em.
  eexists; exists m; repeat split; reflexivity.
Qed.

Lemma cos_atan_pos (t : R) : 0 < cos (atan t).
Proof.
  apply cos_gt_0; pose proof (atan_bound t); lra.
Qed.

(** ** Point transform *)

(** C1: for every offset, height and cant the point transform returns
    [(offset - height * sin(atan(cant / 1067)), height * cos(atan(cant / 1067)))]
    (the x-coordinate is shifted, never scaled by the cosine), and for cant 0
    it returns [(offset, height)]. *)
Theorem rail_center_transform_formula (offset_mm height_mm cant_mm : R) :
  coordinate_transform_to_rail_center offset_mm height_mm cant_mm
  = (offset_mm - height_mm * sin (atan (cant_mm / 1067)),
     height_mm * cos (atan (cant_mm / 1067)))
  /\ coordinate_transform_to_rail_center offset_mm height_mm 0
     = (offset_mm, height_mm).
Proof.
  unfold coordinate_transform_to_rail_center,
    ExcelAccurateCalculatorV22.rail_gauge; split.
  - destruct (Req_dec_T cant_mm 0) as [-> | Hc]; [| reflexivity].
    replace (0 / 1067) with 0 by lra.
    rewrite atan_0, sin_0, cos_0; f_equal; lra.
  - destruct (Req_dec_T 0 0) as [_ | Hc]; [reflexivity | lra].
Qed.

(** ** Tiers and rounding *)

(** C2: the corrected margin of every evaluation is 0 when ag2 < 5,
    sqrt(ag2^2 - 25) when 5 <= ag2 < 13 and ag2 itself when ag2 >= 13; an
    ag2 of exactly 13 gives 13.  Here ag2 is the raw nearest distance that
    [calculate_ag2_excel_method] computes for the same four inputs, and the
    record reports it unchanged. *)
Theorem corrected_margin_tiers (offset_mm height_mm cant_mm radius_m : R) :
  exists res a,
    calculate_all_excel_method offset_mm height_mm cant_mm radius_m = Some res /\
    calculate_ag2_excel_method offset_mm height_mm cant_mm radius_m
    = Some (Fin a) /\
    ag2_distance res = Fin a /\
    (a < 5 -> corrected_margin (details res) = Fin 0) /\
    (5 <= a < 13 -> corrected_margin (details res) = Fin (sqrt (a ^ 2 - 25))) /\
    (13 <= a -> corrected_margin (details res) = Fin a) /\
    (a = 13 -> corrected_margin (details res) = Fin 13).
Proof.
  destruct (all_total offset_mm height_mm cant_mm radius_m)
    as [res [m [Eres [Em [Ed [_ [_ [Eag _]]]]]]]].
  destruct (margin_total offset_mm height_mm cant_mm radius_m)
    as [m' [a [Em' [Eag2 [_ [Ea [Ec _]]]]]]].
  rewrite Em in Em'; injection Em' as <-.
  exists res, a; rewrite Ed, Eag, Ec.
  split; [exact Eres|]; split; [exact Eag2|]; split; [exact Ea|].
  repeat split; intros; rcases.
  subst a; rcases.
Qed.

(** C3: the margin of every evaluation is the ceiling of the corrected
    margin when the point interferes and its floor when it does not.  The
    corrected margin is the tiered value of the raw nearest distance of the
    inputs, and the point interferes exactly when its rail-centre image
    passes the inside test, or that distance is below 5, or the corrected
    margin is not positive. *)
Theorem final_margin_directional_rounding
        (offset_mm height_mm cant_mm radius_m : R) :
  exists res a v,
    calculate_all_excel_method offset_mm height_mm cant_mm radius_m = Some res /\
    calculate_ag2_excel_method offset_mm height_mm cant_mm radius_m
    = Some (Fin a) /\
    (a < 5 -> v = 0) /\
    (5 <= a < 13 -> v = sqrt (a ^ 2 - 25)) /\
    (13 <= a -> v = a) /\
    corrected_margin (details res) = Fin v /\
    all_is_interference res
    = (_is_point_inside_building_clearance
         (fst (coordinate_transform_to_rail_center offset_mm height_mm cant_mm))
         (snd (coordinate_transform_to_rail_center offset_mm height_mm cant_mm))
         radius_m
       || Rltb a 5 || Rleb v 0) /\
    (all_is_interference res = true ->
       clearance_margin res = Zceil v /\
       IZR (clearance_margin res) - 1 < v <= IZR (clearance_margin res)) /\
    (all_is_interference res = false ->
       clearance_margin res = Zfloor v /\
       IZR (clearance_margin res) <= v < IZR (clearance_margin res) + 1).
Proof.
  destruct (all_total offset_mm height_mm cant_mm radius_m)
    as [res [m [Eres [Em [Ed [_ [Ef [_ Ei]]]]]]]].
  destruct (margin_total offset_mm height_mm cant_mm radius_m)
    as [m' [a [Em' [Eag2 [_ [Ea [Ec [Ein [Eint Er]]]]]]]]].
  rewrite Em in Em'; injection Em' as <-.
  assert (Hv : exists v, corrected_margin m = Fin v /\
                         (a < 5 -> v = 0) /\
                         (5 <= a < 13 -> v = sqrt (a ^ 2 - 25)) /\
                         (13 <= a -> v = a)).
  { rewrite Ec; destruct (Rlt_dec a 5); [| destruct (Rlt_dec a 13)];
      eexists; (split; [reflexivity|]); repeat split; intros;
        try reflexivity; lra. }
  destruct Hv as [v [Ev [T1 [T2 T3]]]].
  exists res, a, v; rewrite Ed, Ef, Ei.
  split; [exact Eres|]; split; [exact Eag2|].
  split; [exact T1|]; split; [exact T2|]; split; [exact T3|].
  split; [exact Ev|].
  split; [rewrite Eint, Ein, Ea, Ev; reflexivity|].
  rewrite Ev in Er; cbn [math_ceil math_floor] in Er.
  split; intros Hi; rewrite Hi in Er; injection Er as ->.
  - split; [reflexivity | apply Zceil_bound].
  - split; [reflexivity | apply Zfloor_bound].
Qed.

(** ** Required clearance on tangent, uncanted track *)

Lemma required_clearance_flat (offset h : R) :
  calculate_required_clearance_excel_method offset h 0 0
  = if Rlt_dec h 375 then (if Rle_dec h 350 then 1225 + h else 1575)
    else base_profile h.
Proof.
  unfold calculate_required_clearance_excel_method,
    coordinate_transform_to_rail_center, base_profile.
  destruct (Req_dec_T 0 0) as [_ | Hc]; [| lra].
  destruct (Rlt_dec 0 0) as [Hr | _]; [lra|].
  destruct (Rlt_dec h 25); [destruct (Rlt_dec h 375); [| lra]; rcases|].
  destruct (Rlt_dec h 375); [rcases|].
  repeat (match goal with
          | |- context [Rlt_dec ?a ?b] => destruct (Rlt_dec a b)
          end; try lra).
Qed.

(** C4, as stated, fails: at height 10 the evaluation requires 1235 where
    the base clearance is 1225. *)
Lemma required_clearance_differs_below_375 :
  exists res,
    calculate_all_excel_method 0 10 0 0 = Some res /\
    required_clearance res = 1235 /\
    calculate_base_clearance_at_height 10 = Fin 1225 /\
    Fin (required_clearance res) <> calculate_base_clearance_at_height 10.
Proof.
  destruct (all_total 0 10 0 0) as [res [m [Eres [_ [_ [Ereq _]]]]]].
  exists res; split; [exact Eres|].
  assert (E1 : required_clearance res = 1235).
  { rewrite Ereq, required_clearance_flat; rcases. }
  assert (E2 : calculate_base_clearance_at_height 10 = Fin 1225).
  { rewrite base_clearance_nonneg by lra; unfold base_profile; rcases. }
  repeat split; try assumption.
  rewrite E1, E2; intros E; injection E as E; lra.
Qed.

(** C4 (amended): with cant 0 and radius 0 the required clearance equals
    the base clearance at the same height for height 0 and for every height
    from 375 up; for a height in [0, 375) it is 1225 + height up to 350 and
    1575 above 350. *)
Theorem required_clearance_flat_track (offset_mm height_mm : R) :
  0 <= height_mm ->
  exists res,
    calculate_all_excel_method offset_mm height_mm 0 0 = Some res /\
    (height_mm = 0 \/ 375 <= height_mm ->
       Fin (required_clearance res)
       = calculate_base_clearance_at_height height_mm) /\
    (height_mm <= 350 -> required_clearance res = 1225 + height_mm) /\
    (350 < height_mm < 375 -> required_clearance res = 1575).
Proof.
  intros Hh.
  destruct (all_total offset_mm height_mm 0 0)
    as [res [m [Eres [_ [_ [Ereq _]]]]]].
  exists res; split; [exact Eres|].
  rewrite Ereq, required_clearance_flat, base_clearance_nonneg by exact Hh.
  repeat split; intros H.
  - destruct H as [-> | H]; [unfold base_profile|]; rcases.
    f_equal; lra.
  - rcases.
  - rcases.
Qed.

Lemma required_clearance_flat_track_witness :
  0 <= 1000 /\
  exists res,
    calculate_all_excel_method 1950 1000 0 0 = Some res /\
    (1000 = 0 \/ 375 <= 1000 ->
       Fin (required_clearance res) = calculate_base_clearance_at_height 1000) /\
    (1000 <= 350 -> required_clearance res = 1225 + 1000) /\
    (350 < 1000 < 375 -> required_clearance res = 1575).
Proof.
  split; [lra | apply (required_clearance_flat_track 1950 1000); lra].
Defined.

(** ** Curve widening *)

(** C7: for every positive radius the upper widening is half the general
    one. *)
Theorem upper_expansion_is_half (radius_m : R) :
  0 < radius_m ->
  calculate_upper_expansion_width radius_m * 2
  = calculate_expansion_width radius_m.
Proof.
  intros Hr; unfold calculate_upper_expansion_width, calculate_expansion_width.
  destruct (Reqb radius_m 0 || Rltb 10000 radius_m); [lra|].
  field; lra.
Qed.

Lemma upper_expansion_is_half_witness :
  0 < 160 /\
  calculate_upper_expansion_width 160 * 2 = calculate_expansion_width 160.
Proof.
  split; [lra | apply (upper_expansion_is_half 160); lra].
Defined.

(** C8 (what the code does): [calculate_curve_widening] tests only for a
    radius equal to 0, so a radius of -100, which is not positive, is
    widened by 23000 / -100 = -230 and not by 0. *)
Theorem curve_widening_negative_radius :
  -100 <= 0 /\
  calculate_curve_widening (-100) = -230 /\
  calculate_curve_widening (-100) <> 0.
Proof.
  assert (E : calculate_curve_widening (-100) = -230).
  { unfold calculate_curve_widening.
    destruct (Req_dec_T (-100) 0); lra. }
  rewrite E; repeat split; lra.
Qed.

(** The other widening paths follow the rule of zero for every radius that
    is not positive: the widening built into the sampled reference data is
    0 for a radius <= 0 and 23000 / radius for a radius > 0, and
    [calculate_curve_widening] agrees with that at 0 and at every positive
    radius. *)
Lemma curve_widening_sibling_paths (radius_m : R) :
  (radius_m = 0 -> calculate_curve_widening radius_m = 0) /\
  (0 < radius_m -> calculate_curve_widening radius_m = 23000 / radius_m) /\
  (radius_m <= 0 ->
     _create_clearance_data_with_widening radius_m
     = Some (map (fun h => (base_profile h + 0, h)) (linspace 0 5700 1775))) /\
  (0 < radius_m ->
     _create_clearance_data_with_widening radius_m
     = Some (map (fun h => (base_profile h + 23000 / radius_m, h))
                 (linspace 0 5700 1775))).
Proof.
  unfold calculate_curve_widening; repeat split; intros H;
    rewrite ?clearance_data_value; unfold inline_widening; rcases.
Qed.

(** ** Negative heights *)

(** C10: a negative height is not rejected: the base clearance there is
    positive infinity, the inside test is false for every y < 0 and every
    y > 5700, and an evaluation at a negative height returns a result that
    is never classified as inside the envelope. *)
Theorem negative_height_never_inside (height_mm : R) :
  height_mm < 0 ->
  calculate_base_clearance_at_height height_mm = Inf /\
  (forall x y r, y < 0 \/ 5700 < y ->
                 _is_point_inside_building_clearance x y r = false) /\
  (forall offset_mm cant_mm radius_m,
      exists res,
        calculate_all_excel_method offset_mm height_mm cant_mm radius_m
        = Some res /\
        is_inside_clearance (details res) = false).
Proof.
  intros Hh; split; [apply base_clearance_negative; exact Hh|].
  split; [intros x y r; apply inside_out_of_range|].
  intros d c r.
  destruct (all_total d height_mm c r) as [res [m [Eres [Em [Ed _]]]]].
  destruct (margin_total d height_mm c r)
    as [m' [a [Em' [_ [_ [_ [_ [Ein _]]]]]]]].
  rewrite Em in Em'; injection Em' as <-.
  exists res; split; [exact Eres|].
  rewrite Ed, Ein; apply inside_out_of_range; left.
  unfold coordinate_transform_to_rail_center.
  destruct (Req_dec_T c 0); cbn [snd]; [exact Hh|].
  pose proof (cos_atan_pos (c / ExcelAccurateCalculatorV22.rail_gauge)); nra.
Qed.

Lemma negative_height_never_inside_witness :
  -1 < 0 /\
  calculate_base_clearance_at_height (-1) = Inf /\
  (forall x y r, y < 0 \/ 5700 < y ->
                 _is_point_inside_building_clearance x y r = false) /\
  (forall offset_mm cant_mm radius_m,
      exists res,
        calculate_all_excel_method offset_mm (-1) cant_mm radius_m = Some res /\
        is_inside_clearance (details res) = false).
Proof.
  split; [lra | apply (negative_height_never_inside (-1)); lra].
Defined.

(** ** The envelope polygon *)

Lemma outline_points_shape :
  outline_points = (1225, 0) :: outline_body ++ [(1350, 5700); (-1350, 5700)].
Proof.
  unfold outline_points, outline_body.
  cbn [app]; repeat (rewrite <- app_assoc; cbn [app]); reflexivity.
Qed.

Lemma slice_of_reversed_right (a z : R * R) (mid : list (R * R)) :
  slice_1_m1 (rev (a :: mid ++ [z])) = rev mid.
Proof.
  unfold slice_1_m1; cbn [rev].
  rewrite rev_app_distr; cbn [rev app tl].
  apply removelast_last.
Qed.

Lemma create_accurate_clearance_shape :
  create_accurate_clearance
  = (1225, 0) :: outline_body ++ [(1350, 5700); (-1350, 5700)]
      ++ map mirror (rev (filter (fun p => Rltb 0 (fst p)) outline_body))
      ++ [(1225, 0)].
Proof.
  unfold create_accurate_clearance; rewrite outline_points_shape.
  cbn [filter fst].
  assert (E1 : Rltb 0 1225 = true) by (apply Rltb_true; lra).
  assert (E2 : Rltb 0 1350 = true) by (apply Rltb_true; lra).
  assert (E3 : Rltb 0 (-1350) = false) by (apply Rltb_false; lra).
  rewrite E1, filter_app; cbn [filter fst]; rewrite E2, E3.
  rewrite slice_of_reversed_right.
  cbn [app]; repeat rewrite <- app_assoc; reflexivity.
Qed.

Lemma in_linspace_ge (lo stop : R) (num : nat) (h : R) :
  lo <= stop -> (1 < num)%nat -> In h (linspace lo stop num) -> lo <= h.
Proof.
  intros Hs Hn Hin.
  pose proof (linspace_from_nonneg stop num lo Hs Hn) as HF.
  rewrite Forall_forall in HF; apply HF; exact Hin.
Qed.

Lemma upper_arc_start_angle :
  upper_arc_points
  = flat_map (fun i =>
                let angle :=
                  atan (sqrt (1800 ^ 2 - 1350 ^ 2) / 1350)
                  + (PI / 2 - atan (sqrt (1800 ^ 2 - 1350 ^ 2) / 1350))
                    * INR i / 29 in
                let x := 0 + 1800 * cos angle in
                let y := 4000 + 1800 * sin angle in
                if Rleb (Rabs x) 1350 && Rleb y 5700 && Rleb 4000 y
                then [(x, y)] else [])
             (seq 0 30).
Proof.
  unfold upper_arc_points.
  destruct (Rle_dec 0 (1800 ^ 2 - 1350 ^ 2)) as [_ | H]; [| lra].
  unfold atan2.
  destruct (Rlt_dec 0 (1350 - 0)) as [_ | H]; [| lra].
  replace (4000 + sqrt (1800 ^ 2 - 1350 ^ 2) - 4000)
    with (sqrt (1800 ^ 2 - 1350 ^ 2)) by lra.
  replace (1350 - 0) with 1350 by lra.
  reflexivity.
Qed.

Ltac split_in H := apply in_app_or in H; destruct H as [H | H].

Lemma in_outline_body (p : R * R) :
  In p outline_body ->
  In p [(1225, 25)] \/ In p slope_points
  \/ In p [(1575, 920); (1900, 920); (1900, 3156)] \/ In p arc_points
  \/ In p [(1350, 3823); (1350, 4300)] \/ In p upper_arc_points.
Proof.
  unfold outline_body; intros H.
  split_in H; [tauto|]. split_in H; [tauto|]. split_in H; [tauto|].
  split_in H; [tauto|]. split_in H; tauto.
Qed.

Lemma in_create_accurate_clearance (p : R * R) :
  In p create_accurate_clearance <->
  p = (1225, 0) \/ In p outline_body
  \/ In p [(1350, 5700); (-1350, 5700)]
  \/ In p (map mirror (rev (filter (fun p => Rltb 0 (fst p)) outline_body))).
Proof.
  rewrite create_accurate_clearance_shape; split.
  - intros [E | H]; [left; symmetry; exact E|].
    split_in H; [tauto|]. split_in H; [tauto|]. split_in H; [tauto|].
    destruct H as [E | []]; left; symmetry; exact E.
  - intros [E | [H | [H | H]]].
    + left; symmetry; exact E.
    + right; apply in_or_app; left; exact H.
    + right; apply in_or_app; right; apply in_or_app; left; exact H.
    + right; apply in_or_app; right; apply in_or_app; right.
      apply in_or_app; left; exact H.
Qed.

(** Every vertex of the body lies at height 25 or more and on the
    non-negative side. *)
Lemma outline_body_bounds (p : R * R) :
  In p outline_body -> 25 <= snd p /\ 0 <= fst p.
Proof.
  intros Hin; apply in_outline_body in Hin.
  destruct Hin as [Hin | [Hin | [Hin | [Hin | [Hin | Hin]]]]].
  - destruct Hin as [<- | []]; cbn; lra.
  - unfold slope_points in Hin; apply in_map_iff in Hin.
    destruct Hin as [h [<- Hh]]; cbn [fst snd].
    apply in_linspace_ge in Hh; [| lra | lia]. lra.
  - cbn in Hin; intuition (subst p; cbn; lra).
  - unfold arc_points in Hin; apply in_flat_map in Hin.
    destruct Hin as [h [Hh Hin]].
    apply in_linspace_ge in Hh; [| lra | lia].
    destruct (Rle_dec 0 (2150 ^ 2 - (h - 2150) ^ 2)); [| destruct Hin].
    destruct Hin as [<- | []]; cbn [fst snd]; split; [lra | apply sqrt_pos].
  - cbn in Hin; intuition (subst p; cbn; lra).
  - rewrite upper_arc_start_angle in Hin; apply in_flat_map in Hin.
    destruct Hin as [i [Hi Hin]]; cbv zeta in Hin.
    match type of Hin with
    | In _ (if ?b then _ else _) => destruct b eqn:Eb; [| destruct Hin]
    end.
    destruct Hin as [<- | []]; cbn [fst snd].
    apply andb_prop in Eb; destruct Eb as [Eb E3].
    apply Rleb_true in E3; split; [lra|].
    apply in_seq in Hi.
    assert (Hi' : 0 <= INR i <= 29).
    { split; [apply pos_INR|].
      replace 29 with (INR 29) by (rewrite INR_IZR_INZ; reflexivity).
      apply le_INR; lia. }
    pose proof (atan_bound (sqrt (1800 ^ 2 - 1350 ^ 2) / 1350)) as Hb.
    set (s := atan (sqrt (1800 ^ 2 - 1350 ^ 2) / 1350)) in *.
    assert (Hc : 0 <= cos (s + (PI / 2 - s) * INR i / 29)).
    { apply cos_ge_0; nra. }
    lra.
Qed.

(** C6 (what the code does): the polygon has the vertex (1225, 0) but not
    its mirror image (-1225, 0): the mirrored copy leaves out the last
    right-hand point. *)
Theorem base_vertex_has_no_mirror :
  In (1225, 0) create_accurate_clearance /\
  ~ In (-1225, 0) create_accurate_clearance.
Proof.
  rewrite !in_create_accurate_clearance; split; [left; reflexivity|].
  intros [E | [Hin | [Hin | Hin]]].
  - injection E as E; lra.
  - apply outline_body_bounds in Hin; cbn in Hin; lra.
  - cbn in Hin; destruct Hin as [E | [E | []]]; injection E as E1 E2; lra.
  - apply in_map_iff in Hin; destruct Hin as [q [E Hq]].
    apply in_rev, filter_In in Hq; destruct Hq as [Hq _].
    apply outline_body_bounds in Hq.
    unfold mirror in E; injection E as E1 E2; lra.
Qed.

(** Every other vertex does have its mirror image in the polygon. *)
Lemma mirror_present_except_base (x y : R) :
  In (x, y) create_accurate_clearance ->
  (x, y) <> (1225, 0) ->
  In (- x, y) create_accurate_clearance.
Proof.
  rewrite !in_create_accurate_clearance; intros Hin Hne.
  destruct Hin as [E | [Hin | [Hin | Hin]]]; [contradiction| | |].
  - destruct (outline_body_bounds _ Hin) as [_ Hx]; cbn [fst] in Hx.
    destruct (Rlt_dec 0 x) as [Hpos | Hnpos].
    + right; right; right.
      apply in_map_iff; exists (x, y); split; [reflexivity|].
      apply -> in_rev; apply filter_In; split; [exact Hin|].
      apply Rltb_true; exact Hpos.
    + assert (x = 0) by lra; subst x.
      rewrite Ropp_0; right; left; exact Hin.
  - right; right; left.
    cbn in Hin; destruct Hin as [E | [E | []]]; injection E as <- <-.
    + right; left; reflexivity.
    + left; f_equal; lra.
  - apply in_map_iff in Hin; destruct Hin as [q [E Hq]].
    apply in_rev, filter_In in Hq.
    destruct Hq as [Hq _]; unfold mirror in E; injection E as <- <-.
    rewrite Ropp_involutive; right; left.
    destruct q; exact Hq.
Qed.

(** ** One-sided limits at the band boundaries *)

Lemma left_limit_unique (f : R -> pyfloat) (b l1 l2 : R) :
  is_left_limit f b l1 -> is_left_limit f b l2 -> l1 = l2.
Proof.
  intros H1 H2.
  destruct (Req_dec_T l1 l2) as [E | Hne]; [exact E | exfalso].
  assert (He : 0 < Rabs (l1 - l2) / 2).
  { pose proof (Rabs_pos_lt (l1 - l2)); lra. }
  destruct (H1 _ He) as [d1 [Hd1 K1]]; destruct (H2 _ He) as [d2 [Hd2 K2]].
  pose proof (Rmin_l d1 d2); pose proof (Rmin_r d1 d2).
  assert (Hm : 0 < Rmin d1 d2) by (apply Rmin_glb_lt; assumption).
  destruct (K1 (b - Rmin d1 d2 / 2)) as [v1 [E1 B1]]; [lra|].
  destruct (K2 (b - Rmin d1 d2 / 2)) as [v2 [E2 B2]]; [lra|].
  rewrite E1 in E2; injection E2 as <-.
  revert B1 B2 He; unfold Rabs; repeat destruct Rcase_abs; lra.
Qed.

Lemma right_limit_unique (f : R -> pyfloat) (b l1 l2 : R) :
  is_right_limit f b l1 -> is_right_limit f b l2 -> l1 = l2.
Proof.
  intros H1 H2.
  destruct (Req_dec_T l1 l2) as [E | Hne]; [exact E | exfalso].
  assert (He : 0 < Rabs (l1 - l2) / 2).
  { pose proof (Rabs_pos_lt (l1 - l2)); lra. }
  destruct (H1 _ He) as [d1 [Hd1 K1]]; destruct (H2 _ He) as [d2 [Hd2 K2]].
  pose proof (Rmin_l d1 d2); pose proof (Rmin_r d1 d2).
  assert (Hm : 0 < Rmin d1 d2) by (apply Rmin_glb_lt; assumption).
  destruct (K1 (b + Rmin d1 d2 / 2)) as [v1 [E1 B1]]; [lra|].
  destruct (K2 (b + Rmin d1 d2 / 2)) as [v2 [E2 B2]]; [lra|].
  rewrite E1 in E2; injection E2 as <-.
  revert B1 B2 He; unfold Rabs; repeat destruct Rcase_abs; lra.
Qed.

(** A function that stays within [K * |h - b|] of [l] on one side of [b]
    has the one-sided limit [l] there. *)
Lemma left_limit_from_bound (f : R -> pyfloat) (b l K d0 : R) :
  0 < d0 -> 0 <= K ->
  (forall h, b - d0 < h < b ->
             exists v, f h = Fin v /\ Rabs (v - l) <= K * (b - h)) ->
  is_left_limit f b l.
Proof.
  intros Hd HK Hf eps Heps.
  exists (Rmin d0 (eps / (K + 1))).
  assert (Hq : 0 < eps / (K + 1)) by (apply Rdiv_lt_0_compat; lra).
  pose proof (Rmin_l d0 (eps / (K + 1))) as Hl.
  pose proof (Rmin_r d0 (eps / (K + 1))) as Hr.
  split; [apply Rmin_glb_lt; assumption|].
  intros h Hh; destruct (Hf h) as [v [E B]]; [lra|].
  exists v; split; [exact E|].
  assert (Hs : (K + 1) * (eps / (K + 1)) = eps) by (field; lra).
  assert (Hbh : b - h < eps / (K + 1)) by lra.
  nra.
Qed.

Lemma right_limit_from_bound (f : R -> pyfloat) (b l K d0 : R) :
  0 < d0 -> 0 <= K ->
  (forall h, b < h < b + d0 ->
             exists v, f h = Fin v /\ Rabs (v - l) <= K * (h - b)) ->
  is_right_limit f b l.
Proof.
  intros Hd HK Hf eps Heps.
  exists (Rmin d0 (eps / (K + 1))).
  assert (Hq : 0 < eps / (K + 1)) by (apply Rdiv_lt_0_compat; lra).
  pose proof (Rmin_l d0 (eps / (K + 1))) as Hl.
  pose proof (Rmin_r d0 (eps / (K + 1))) as Hr.
  split; [apply Rmin_glb_lt; assumption|].
  intros h Hh; destruct (Hf h) as [v [E B]]; [lra|].
  exists v; split; [exact E|].
  assert (Hs : (K + 1) * (eps / (K + 1)) = eps) by (field; lra).
  assert (Hbh : h - b < eps / (K + 1)) by lra.
  nra.
Qed.

Lemma sqrt_diff_bound (a c : R) :
  0 <= a -> 1 <= c -> Rabs (sqrt a - sqrt c) <= Rabs (a - c).
Proof.
  intros Ha Hc.
  pose proof (sqrt_pos a) as Hs; pose proof (sqrt_sqrt a Ha) as Es.
  assert (Ht : 1 <= sqrt c).
  { rewrite <- sqrt_1; apply sqrt_le_1_alt; exact Hc. }
  assert (Et : sqrt c * sqrt c = c) by (apply sqrt_sqrt; lra).
  rewrite <- Es, <- Et at 2.
  unfold Rabs; repeat destruct Rcase_abs; nra.
Qed.

(** Squeezing a square root between two rationals. *)
Lemma sqrt_between (a lo hi : R) :
  0 <= lo -> lo * lo < a -> a < hi * hi -> 0 <= hi -> lo < sqrt a < hi.
Proof.
  intros Hlo H1 H2 Hhi.
  assert (Ha : 0 <= a) by nra.
  pose proof (sqrt_pos a) as Hs; pose proof (sqrt_sqrt a Ha) as Es.
  split; nra.
Qed.

(** The value of the band chain, band by band. *)
Ltac pick_band h :=
  unfold base_profile;
  repeat match goal with
         | |- context [Rlt_dec h ?c] => destruct (Rlt_dec h c); try lra
         end.

Lemma base_profile_foot (h : R) : h < 25 -> base_profile h = 1225.
Proof. intros H; pick_band h. Qed.

Lemma base_profile_slope (h : R) :
  25 <= h < 375 -> base_profile h = 1225 + (h - 25) * (1575 - 1225) / (375 - 25).
Proof. intros H; pick_band h. Qed.

Lemma base_profile_platform (h : R) : 375 <= h < 920 -> base_profile h = 1575.
Proof. intros H; pick_band h. Qed.

Lemma base_profile_body (h : R) : 920 <= h < 3156 -> base_profile h = 1900.
Proof. intros H; pick_band h. Qed.

Lemma base_profile_shoulder (h : R) :
  3156 <= h < 3823 -> base_profile h = sqrt (2150 ^ 2 - (h - 2150) ^ 2).
Proof.
  intros H; pick_band h.
  destruct (Rlt_dec (2150 ^ 2 - (h - 2150) ^ 2) 0); [nra | reflexivity].
Qed.

Lemma base_profile_neck (h : R) : 3823 <= h < 5190 -> base_profile h = 1350.
Proof. intros H; pick_band h. Qed.

Lemma base_profile_crown (h : R) :
  5190 <= h <= 5800 -> base_profile h = sqrt (1800 ^ 2 - (h - 4000) ^ 2).
Proof.
  intros H; pick_band h.
  destruct (Rlt_dec (1800 ^ 2 - (h - 4000) ^ 2) 0); [nra | reflexivity].
Qed.

Ltac const_limit lem :=
  intros h Hh; rewrite base_clearance_nonneg by lra;
  rewrite lem by lra; eexists; split; [reflexivity|];
  rewrite Rminus_diag, Rabs_R0; lra.

Lemma left_limit_25 : is_left_limit calculate_base_clearance_at_height 25 1225.
Proof.
  apply (left_limit_from_bound _ _ _ 0 1); [lra | lra |].
  const_limit base_profile_foot.
Qed.

Lemma right_limit_25 : is_right_limit calculate_base_clearance_at_height 25 1225.
Proof.
  apply (right_limit_from_bound _ _ _ 1 1); [lra | lra |].
  intros h Hh; rewrite base_clearance_nonneg by lra.
  rewrite base_profile_slope by lra; eexists; split; [reflexivity|].
  unfold Rabs; destruct Rcase_abs; lra.
Qed.

Lemma left_limit_375 : is_left_limit calculate_base_clearance_at_height 375 1575.
Proof.
  apply (left_limit_from_bound _ _ _ 1 1); [lra | lra |].
  intros h Hh; rewrite base_clearance_nonneg by lra.
  rewrite base_profile_slope by lra; eexists; split; [reflexivity|].
  unfold Rabs; destruct Rcase_abs; lra.
Qed.

Lemma right_limit_375 : is_right_limit calculate_base_clearance_at_height 375 1575.
Proof.
  apply (right_limit_from_bound _ _ _ 0 1); [lra | lra |].
  const_limit base_profile_platform.
Qed.

Lemma left_limit_920 : is_left_limit calculate_base_clearance_at_height 920 1575.
Proof.
  apply (left_limit_from_bound _ _ _ 0 1); [lra | lra |].
  const_limit base_profile_platform.
Qed.

Lemma right_limit_920 : is_right_limit calculate_base_clearance_at_height 920 1900.
Proof.
  apply (right_limit_from_bound _ _ _ 0 1); [lra | lra |].
  const_limit base_profile_body.
Qed.

Lemma left_limit_3156 : is_left_limit calculate_base_clearance_at_height 3156 1900.
Proof.
  apply (left_limit_from_bound _ _ _ 0 1); [lra | lra |].
  const_limit base_profile_body.
Qed.

Lemma right_limit_3156 :
  is_right_limit calculate_base_clearance_at_height 3156 (sqrt 3610464).
Proof.
  apply (right_limit_from_bound _ _ _ 5000 1); [lra | lra |].
  intros h Hh; rewrite base_clearance_nonneg by lra.
  rewrite base_profile_shoulder by lra; eexists; split; [reflexivity|].
  eapply Rle_trans; [apply sqrt_diff_bound; [nra | lra]|].
  unfold Rabs; destruct Rcase_abs; nra.
Qed.

Lemma left_limit_3823 :
  is_left_limit calculate_base_clearance_at_height 3823 (sqrt 1823571).
Proof.
  apply (left_limit_from_bound _ _ _ 5000 1); [lra | lra |].
  intros h Hh; rewrite base_clearance_nonneg by lra.
  rewrite base_profile_shoulder by lra; eexists; split; [reflexivity|].
  eapply Rle_trans; [apply sqrt_diff_bound; [nra | lra]|].
  unfold Rabs; destruct Rcase_abs; nra.
Qed.

Lemma right_limit_3823 : is_right_limit calculate_base_clearance_at_height 3823 1350.
Proof.
  apply (right_limit_from_bound _ _ _ 0 1); [lra | lra |].
  const_limit base_profile_neck.
Qed.

Lemma left_limit_5190 : is_left_limit calculate_base_clearance_at_height 5190 1350.
Proof.
  apply (left_limit_from_bound _ _ _ 0 1); [lra | lra |].
  const_limit base_profile_neck.
Qed.

Lemma right_limit_5190 :
  is_right_limit calculate_base_clearance_at_height 5190 (sqrt 1823900).
Proof.
  apply (right_limit_from_bound _ _ _ 5000 1); [lra | lra |].
  intros h Hh; rewrite base_clearance_nonneg by lra.
  rewrite base_profile_crown by lra; eexists; split; [reflexivity|].
  eapply Rle_trans; [apply sqrt_diff_bound; [nra | lra]|].
  unfold Rabs; destruct Rcase_abs; nra.
Qed.

(** C5, as stated, fails: at the boundary 920 the one-sided limits are 1575
    and 1900, which are not within 1e-6 of each other. *)
Lemma limits_disagree_at_920 :
  In 920 segment_boundaries /\
  ~ limits_agree_within calculate_base_clearance_at_height (1 / 1000000) 920.
Proof.
  split; [cbn; tauto|].
  intros [l [r [Hl [Hr Habs]]]].
  rewrite (left_limit_unique _ _ _ _ Hl left_limit_920) in Habs.
  rewrite (right_limit_unique _ _ _ _ Hr right_limit_920) in Habs.
  revert Habs; unfold Rabs; destruct Rcase_abs; lra.
Qed.

(** C5 (amended): the base clearance is continuous at the boundaries 25 and
    375 (equal one-sided limits 1225 and 1575); at 920 it steps from 1575 to
    1900; at 3156, 3823 and 5190 the one-sided limits exist and differ by
    more than 0.1 mm and less than 1 mm. *)
Theorem base_clearance_boundary_limits :
  (is_left_limit calculate_base_clearance_at_height 25 1225 /\
   is_right_limit calculate_base_clearance_at_height 25 1225) /\
  (is_left_limit calculate_base_clearance_at_height 375 1575 /\
   is_right_limit calculate_base_clearance_at_height 375 1575) /\
  (is_left_limit calculate_base_clearance_at_height 920 1575 /\
   is_right_limit calculate_base_clearance_at_height 920 1900) /\
  (is_left_limit calculate_base_clearance_at_height 3156 1900 /\
   is_right_limit calculate_base_clearance_at_height 3156 (sqrt 3610464) /\
   1 / 10 < sqrt 3610464 - 1900 < 1) /\
  (is_left_limit calculate_base_clearance_at_height 3823 (sqrt 1823571) /\
   is_right_limit calculate_base_clearance_at_height 3823 1350 /\
   1 / 10 < sqrt 1823571 - 1350 < 1) /\
  (is_left_limit calculate_base_clearance_at_height 5190 1350 /\
   is_right_limit calculate_base_clearance_at_height 5190 (sqrt 1823900) /\
   1 / 10 < sqrt 1823900 - 1350 < 1).
Proof.
  pose proof (sqrt_between 3610464 (19001 / 10) 1901) as B1.
  pose proof (sqrt_between 1823571 (13501 / 10) 1351) as B2.
  pose proof (sqrt_between 1823900 (13501 / 10) 1351) as B3.
  repeat split;
    first [ apply left_limit_25 | apply right_limit_25
          | apply left_limit_375 | apply right_limit_375
          | apply left_limit_920 | apply right_limit_920
          | apply left_limit_3156 | apply right_limit_3156
          | apply left_limit_3823 | apply right_limit_3823
          | apply left_limit_5190 | apply right_limit_5190
          | lra ].
Qed.

(** ** The regression fixture: offset 1950, height 3560, cant 100, radius 0 *)

Lemma sqrt_above (k a : R) : 0 <= k -> k * k < a -> k < sqrt a.
Proof.
  intros Hk Ha.
  pose proof (sqrt_pos a) as Hs; pose proof (sqrt_sqrt a) as Es; nra.
Qed.

Lemma sqrt_at_most (k a : R) : 0 <= k -> 0 <= a -> a <= k * k -> sqrt a <= k.
Proof.
  intros Hk Ha Hak.
  pose proof (sqrt_pos a) as Hs; pose proof (sqrt_sqrt a Ha) as Es; nra.
Qed.

Lemma sqrt_below (k a : R) : 0 <= a -> 0 < k -> a < k * k -> sqrt a < k.
Proof.
  intros Ha Hk Hak.
  pose proof (sqrt_pos a) as Hs; pose proof (sqrt_sqrt a Ha) as Es; nra.
Qed.

(** The measured point in the rail-centre frame, to a few hundredths of a
    millimetre. *)
Lemma fixture_rail_point :
  exists rx ry,
    coordinate_transform_to_rail_center 1950 3560 100 = (rx, ry) /\
    16178 / 10 < rx < 161782 / 100 /\
    354443 / 100 < ry < 354448 / 100.
Proof.
  unfold coordinate_transform_to_rail_center,
    ExcelAccurateCalculatorV22.rail_gauge.
  destruct (Req_dec_T 100 0) as [H | _]; [lra|].
  rewrite sin_atan, cos_atan.
  assert (HS : 100438 / 100000 < sqrt (1 + (100 / 1067)²) < 100439 / 100000).
  { apply sqrt_between; unfold Rsqr; lra. }
  set (S := sqrt (1 + (100 / 1067)²)) in *.
  assert (Hi : 0 < / S) by (apply Rinv_0_lt_compat; lra).
  assert (Ei : S * / S = 1) by (apply Rinv_r; lra).
  assert (Bi : 995629 / 1000000 < / S < 99564 / 100000) by (split; nra).
  eexists; eexists; split; [reflexivity|].
  unfold Rdiv in *; split; lra.
Qed.

(** No sample of the straight-track reference data comes within 14 mm of
    the measured point. *)
Lemma fixture_far_from_every_sample (rx ry h : R) :
  16178 / 10 < rx < 161782 / 100 ->
  354443 / 100 < ry < 354448 / 100 ->
  0 <= h ->
  14 < sample_distance rx ry (base_profile h + inline_widening 0, h).
Proof.
  intros Hx Hy Hh; unfold sample_distance, inline_widening; cbn [fst snd].
  destruct (Rlt_dec 0 0) as [H0 | _]; [lra|].
  apply sqrt_above; [lra|].
  pose proof (pow2_ge_0 (rx - (base_profile h + 0))) as Hdx.
  destruct (Rlt_dec h 3156) as [Hb | Hb]; [nra|].
  destruct (Rlt_dec h 3823) as [Hs | Hs]; [| nra].
  rewrite base_profile_shoulder by lra.
  assert (HD : 0 <= 2150 ^ 2 - (h - 2150) ^ 2) by nra.
  pose proof (sqrt_pos (2150 ^ 2 - (h - 2150) ^ 2)) as Hc.
  pose proof (sqrt_sqrt _ HD) as Ec.
  set (c := sqrt (2150 ^ 2 - (h - 2150) ^ 2)) in *.
  set (v := ry - 2150); set (b := h - 2150).
  assert (Eb : c * c + b * b = 2150 * 2150) by (unfold b; lra).
  assert (HN : 0 <= rx * rx + v * v) by nra.
  pose proof (sqrt_pos (rx * rx + v * v)) as Hn.
  pose proof (sqrt_sqrt _ HN) as En.
  assert (Bn : sqrt (rx * rx + v * v) < 2136).
  { apply sqrt_below; [exact HN | lra | unfold v; nra]. }
  set (n := sqrt (rx * rx + v * v)) in *.
  assert (CS : (rx * c + v * b) * (rx * c + v * b)
               <= (rx * rx + v * v) * (c * c + b * b)).
  { pose proof (pow2_ge_0 (rx * b - v * c)); nra. }
  assert (HX : rx * c + v * b <= 2150 * n).
  { destruct (Rle_dec (rx * c + v * b) (2150 * n)) as [H | H]; [exact H|].
    exfalso; rewrite Eb, <- En in CS; nra. }
  replace ((rx - (c + 0)) ^ 2 + (ry - h) ^ 2)
    with (rx * rx + v * v + (c * c + b * b) - 2 * (rx * c + v * b))
    by (unfold v, b; ring).
  rewrite Eb, <- En.
  assert (Hm : 14 * 14 < (2150 - n) * (2150 - n)) by nra.
  lra.
Qed.

(** The height of sample number 1106 and the reference point there. *)
Lemma fixture_near_sample (rx ry : R) :
  16178 / 10 < rx < 161782 / 100 ->
  354443 / 100 < ry < 354448 / 100 ->
  exists p,
    In p (map (fun h => (base_profile h + inline_widening 0, h))
              (linspace 0 5700 1775)) /\
    sample_distance rx ry p <= 15.
Proof.
  intros Hx Hy.
  set (h1 := 0 + INR 1106 * ((5700 - 0) / INR (1775 - 1))).
  assert (Bh : 355366 / 100 < h1 < 355367 / 100).
  { unfold h1.
    replace (INR 1106) with 1106 by (rewrite INR_IZR_INZ; reflexivity).
    replace (INR (1775 - 1)) with 1774 by (rewrite INR_IZR_INZ; reflexivity).
    lra. }
  exists (base_profile h1 + inline_widening 0, h1); split.
  - apply (in_map (fun h => (base_profile h + inline_widening 0, h))).
    unfold linspace.
    apply (in_map (fun i => 0 + INR i * ((5700 - 0) / INR (1775 - 1)))).
    apply in_seq; lia.
  - unfold sample_distance, inline_widening; cbn [fst snd].
    destruct (Rlt_dec 0 0) as [H0 | _]; [lra|].
    rewrite base_profile_shoulder by lra.
    assert (Bc : 16285 / 10 < sqrt (2150 ^ 2 - (h1 - 2150) ^ 2) < 16286 / 10).
    { apply sqrt_between; nra. }
    set (c := sqrt (2150 ^ 2 - (h1 - 2150) ^ 2)) in *.
    apply sqrt_at_most; [lra | nra | nra].
Qed.

(** The raw nearest distance of the fixture lies between 14 and 15. *)
Lemma fixture_ag2 :
  exists a, calculate_ag2_excel_method 1950 3560 100 0 = Some (Fin a) /\
            14 < a <= 15.
Proof.
  destruct (ag2_value 1950 3560 100 0) as [a [Ea [_ [Hle [p [Hp Eq]]]]]].
  destruct fixture_rail_point as [rx [ry [Er [Hx Hy]]]].
  rewrite Er in *; cbn [fst snd] in *.
  exists a; split; [exact Ea|]; split.
  - rewrite Eq; apply in_map_iff in Hp; destruct Hp as [h [<- Hh]].
    apply fixture_far_from_every_sample; try assumption.
    apply (in_linspace_ge 0 5700 1775); [lra | lia | exact Hh].
  - destruct (fixture_near_sample rx ry Hx Hy) as [q [Hq Bq]].
    specialize (Hle q Hq); lra.
Qed.

Lemma fixture_inside :
  _is_point_inside_building_clearance
    (fst (coordinate_transform_to_rail_center 1950 3560 100))
    (snd (coordinate_transform_to_rail_center 1950 3560 100)) 0 = true.
Proof.
  destruct fixture_rail_point as [rx [ry [Er [Hx Hy]]]].
  rewrite Er; cbn [fst snd].
  rewrite inside_in_range by lra.
  apply Rltb_true; unfold inline_widening.
  destruct (Rlt_dec 0 0) as [H0 | _]; [lra|].
  rewrite base_profile_shoulder by lra.
  assert (Bc : 161782 / 100 < sqrt (2150 ^ 2 - (ry - 2150) ^ 2)).
  { apply sqrt_above; nra. }
  unfold Rabs; destruct Rcase_abs; lra.
Qed.

(** C9: the fixture offset 1950, height 3560, cant 100, radius 0 evaluates
    to an interference with a margin of 15. *)
Theorem fixture_interference_15 :
  exists res,
    calculate_all_excel_method 1950 3560 100 0 = Some res /\
    all_is_interference res = true /\
    clearance_margin res = 15%Z.
Proof.
  destruct (all_total 1950 3560 100 0)
    as [res [m [Eres [Em [_ [_ [Ef [_ Ei]]]]]]]].
  destruct (margin_total 1950 3560 100 0)
    as [m' [a [Em' [Ea [_ [_ [Ec [Ein [Eint Er]]]]]]]]].
  rewrite Em in Em'; injection Em' as <-.
  destruct fixture_ag2 as [a' [Ea' Ba]].
  rewrite Ea in Ea'; injection Ea' as <-.
  exists res; split; [exact Eres|].
  rewrite Ef, Ei.
  assert (Hi : is_interference m = true).
  { rewrite Eint, Ein, fixture_inside; reflexivity. }
  split; [exact Hi|].
  rewrite Hi, Ec in Er.
  destruct (Rlt_dec a 5); [lra|]. destruct (Rlt_dec a 13); [lra|].
  cbn [math_ceil] in Er; injection Er as ->.
  apply Zceil_eq; lra.
Qed.


(** * Further properties of the code *)

(** ** The display transform of the envelope *)

Lemma trig_shift_nat (x : R) (n : nat) :
  cos (x - INR n * (2 * PI)) = cos x /\ sin (x - INR n * (2 * PI)) = sin x.
Proof.
  split.
  - rewrite <- (cos_period (x - INR n * (2 * PI)) n); f_equal; lra.
  - rewrite <- (sin_period (x - INR n * (2 * PI)) n); f_equal; lra.
Qed.

Lemma trig_fmod (x : R) :
  0 <= x ->
  cos (py_fmod x (2 * PI)) = cos x /\ sin (py_fmod x (2 * PI)) = sin x.
Proof.
  intros Hx; unfold py_fmod.
  assert (HP : 0 < 2 * PI) by (pose proof PI_RGT_0; lra).
  assert (Hk : (0 <= Zfloor (x / (2 * PI)))%Z).
  { apply Zfloor_lub; apply Rmult_le_pos; [exact Hx|].
    left; apply Rinv_0_lt_compat; exact HP. }
  rewrite <- (Z2Nat.id _ Hk), <- INR_IZR_INZ.
  apply trig_shift_nat.
Qed.

Lemma polar_of_atan (o p : R) :
  o <> 0 ->
  sqrt (o ^ 2 + p ^ 2) * cos (atan (p / o)) = Rabs o /\
  sqrt (o ^ 2 + p ^ 2) * sin (atan (p / o)) = Rabs o * (p / o).
Proof.
  intros Ho; rewrite cos_atan, sin_atan.
  assert (Hq0 : 0 < 1 + (p / o)²) by (unfold Rsqr; nra).
  pose proof (sqrt_lt_R0 _ Hq0) as Hq.
  pose proof (sqrt_sqrt (1 + (p / o)²) (Rlt_le _ _ Hq0)) as Eq.
  set (q := sqrt (1 + (p / o)²)) in *.
  assert (Er : sqrt (o ^ 2 + p ^ 2) = Rabs o * q).
  { apply sqrt_lem_1.
    - nra.
    - apply Rmult_le_pos; [apply Rabs_pos | lra].
    - replace (Rabs o * q * (Rabs o * q)) with (Rabs o * Rabs o * (q * q))
        by ring.
      rewrite Eq; unfold Rsqr.
      replace (Rabs o * Rabs o) with (o * o)
        by (unfold Rabs; destruct Rcase_abs; ring).
      field; exact Ho. }
  rewrite Er; split; field; lra.
Qed.

(** Columns R, S, T of the sheet are the polar coordinates of [(o, p)],
    with the angle taken in [[0, 2 PI)]. *)
Lemma polar_columns (o p : R) :
  let r_coord := sqrt (o ^ 2 + p ^ 2) in
  let s_coord :=
    if Reqb o 0 && Reqb p 0 then 0
    else if Reqb o 0 && Rltb 0 p then PI / 2
    else if Reqb o 0 && Rltb p 0 then - PI / 2
    else atan (p / o) in
  let t_coord :=
    if Rleb 0 o && Rleb 0 p then s_coord
    else if Rltb o 0 && Rleb 0 p then s_coord + PI
    else if Rltb o 0 && Rltb p 0 then s_coord + PI
    else s_coord + 2 * PI in
  r_coord * cos t_coord = o /\ r_coord * sin t_coord = p /\ 0 <= t_coord.
Proof.
  cbv zeta.
  pose proof PI_RGT_0 as HPI.
  pose proof (atan_bound (p / o)) as Hb.
  destruct (Req_dec_T o 0) as [Eo | Ho].
  - (* on the vertical axis *)
    subst o.
    assert (E0 : Reqb 0 0 = true) by (apply Reqb_true; reflexivity).
    assert (E1 : Rleb 0 0 = true) by (apply Rleb_true; lra).
    assert (E2 : Rltb 0 0 = false) by (apply Rltb_false; lra).
    rewrite E0, E1, E2; cbn [andb].
    replace (0 ^ 2 + p ^ 2) with (p * p) by ring.
    unfold Reqb, Rltb, Rleb.
    destruct (Req_dec_T p 0) as [Ep | Hp].
    + subst p; destruct (Rle_dec 0 0); [| lra].
      rewrite Rmult_0_l, sqrt_0; lra.
    + destruct (Rlt_dec 0 p) as [Hpos | Hneg].
      * destruct (Rle_dec 0 p); [| lra].
        rewrite sqrt_square by lra.
        rewrite cos_PI2, sin_PI2; lra.
      * destruct (Rlt_dec p 0); [| lra]. destruct (Rle_dec 0 p); [lra|].
        replace (p * p) with ((- p) * (- p)) by ring.
        rewrite sqrt_square by lra.
        replace (- PI / 2 + 2 * PI) with (- (PI / 2) + 2 * INR 1 * PI)
          by (cbn [INR]; lra).
        rewrite cos_period, sin_period, cos_neg, sin_neg, cos_PI2, sin_PI2.
        replace (- (PI / 2) + 2 * INR 1 * PI) with (3 * (PI / 2))
          by (cbn [INR]; lra).
        lra.
  - (* off the axis: the arctangent, moved to the right quadrant *)
    assert (E0 : Reqb o 0 = false).
    { unfold Reqb; destruct (Req_dec_T o 0); [contradiction | reflexivity]. }
    rewrite E0; cbn [andb].
    destruct (polar_of_atan o p Ho) as [Hc Hs].
    unfold Rltb, Rleb.
    destruct (Rlt_dec o 0) as [Hneg | Hpos].
    + destruct (Rle_dec 0 o); [lra|]; cbn [andb].
      rewrite Rabs_left in Hc, Hs by lra.
      assert (Ep : o * (p / o) = p) by (field; exact Ho).
      assert (Hg : sqrt (o ^ 2 + p ^ 2) * cos (atan (p / o) + PI) = o /\
                   sqrt (o ^ 2 + p ^ 2) * sin (atan (p / o) + PI) = p /\
                   0 <= atan (p / o) + PI).
      { rewrite neg_cos, neg_sin.
        split; [| split]; [| | lra].
        - replace (sqrt (o ^ 2 + p ^ 2) * - cos (atan (p / o)))
            with (- (sqrt (o ^ 2 + p ^ 2) * cos (atan (p / o)))) by ring.
          rewrite Hc; lra.
        - replace (sqrt (o ^ 2 + p ^ 2) * - sin (atan (p / o)))
            with (- (sqrt (o ^ 2 + p ^ 2) * sin (atan (p / o)))) by ring.
          rewrite Hs; lra. }
      destruct (Rle_dec 0 p); [exact Hg|].
      destruct (Rlt_dec p 0); [exact Hg | lra].
    + destruct (Rle_dec 0 o); [| lra]; cbn [andb].
      rewrite Rabs_right in Hc, Hs by lra.
      assert (Ep : o * (p / o) = p) by (field; exact Ho).
      destruct (Rle_dec 0 p) as [Hp | Hp]; cbn [andb].
      * split; [lra | split; [lra|]].
        assert (0 <= p / o).
        { apply Rmult_le_pos; [lra|]. left; apply Rinv_0_lt_compat; lra. }
        rewrite <- atan_0.
        destruct (Req_dec_T (p / o) 0) as [-> | Hne]; [lra|].
        left; apply atan_increasing; lra.
      * replace (atan (p / o) + 2 * PI) with (atan (p / o) + 2 * INR 1 * PI)
          by (cbn [INR]; lra).
        rewrite cos_period, sin_period; cbn [INR]; lra.
Qed.

Lemma transform_vertex_rotation (w theta md x y : R) :
  0 <= theta + 2 * PI ->
  transform_vertex w theta md (x, y)
  = (fst (rotate theta (widen_coordinate w x + md, y)) - md,
     snd (rotate theta (widen_coordinate w x + md, y))).
Proof.
  intros Hth.
  cbv beta iota zeta delta [transform_vertex rotate fst snd].
  assert (El : (if negb (Reqb x 0)
                then if Rltb 0 x then x + w else x - w
                else 0) = widen_coordinate w x).
  { unfold widen_coordinate, Reqb, Rltb.
    destruct (Req_dec_T x 0); cbn [negb]; rcases. }
  rewrite El; set (o := widen_coordinate w x + md).
  pose proof (polar_columns o y) as Hp; cbv zeta in Hp.
  set (t := if Rleb 0 o && Rleb 0 y then _ else _) in *.
  destruct Hp as [Hc [Hs Ht]].
  assert (Hx : cos (if Rleb (2 * PI) (t + theta)
                    then py_fmod (t + theta) (2 * PI) else t + theta)
               = cos (t + theta) /\
               sin (if Rleb (2 * PI) (t + theta)
                    then py_fmod (t + theta) (2 * PI) else t + theta)
               = sin (t + theta)).
  { destruct (Rleb (2 * PI) (t + theta)) eqn:E; [| split; reflexivity].
    apply Rleb_true in E; apply trig_fmod.
    pose proof PI_RGT_0; lra. }
  destruct Hx as [Hx1 Hx2]; rewrite Hx1, Hx2, cos_plus, sin_plus.
  f_equal.
  - replace (sqrt (o ^ 2 + y ^ 2) * (cos t * cos theta - sin t * sin theta))
      with (sqrt (o ^ 2 + y ^ 2) * cos t * cos theta
            - sqrt (o ^ 2 + y ^ 2) * sin t * sin theta) by ring.
    rewrite Hc, Hs; reflexivity.
  - replace (sqrt (o ^ 2 + y ^ 2) * (sin t * cos theta + cos t * sin theta))
      with (sqrt (o ^ 2 + y ^ 2) * cos t * sin theta
            + sqrt (o ^ 2 + y ^ 2) * sin t * cos theta) by ring.
    rewrite Hc, Hs; reflexivity.
Qed.

Lemma display_widening (r : R) :
  (if Rlt_dec 0 r then calculate_curve_widening r else 0) = inline_widening r.
Proof.
  unfold calculate_curve_widening, inline_widening; rcases.
Qed.

Lemma display_cant_angle (c : R) :
  (if negb (Reqb c 0) then atan (c / ClearanceModelV22.rail_gauge) else 0)
  = atan (c / 1067).
Proof.
  unfold Reqb, ClearanceModelV22.rail_gauge.
  destruct (Req_dec_T c 0) as [-> | H]; cbn [negb]; [| reflexivity].
  replace (0 / 1067) with 0 by lra; symmetry; apply atan_0.
Qed.

Lemma display_transform_map
      (points : list (R * R)) (cant_mm curve_radius_m measurement_distance : R) :
  transform_clearance_excel_display_method
    points cant_mm curve_radius_m measurement_distance
  = map (fun pt =>
           let q := rotate (atan (cant_mm / 1067))
                           (widen_coordinate (inline_widening curve_radius_m)
                                             (fst pt)
                            + measurement_distance, snd pt) in
           (fst q - measurement_distance, snd q))
        points.
Proof.
  unfold transform_clearance_excel_display_method.
  rewrite display_widening, display_cant_angle.
  destruct points as [| p0 rest]; [reflexivity|].
  apply map_ext; intros [x y]; cbn [fst snd].
  apply transform_vertex_rotation.
  pose proof (atan_bound (cant_mm / 1067)); pose proof PI_RGT_0; lra.
Qed.

(** X1: the display transform, written in the sheet as a detour through
    polar coordinates, widens every vertex outward by the curve widening and
    turns it by the cant angle about the point [(- measurement_distance, 0)]
    with an ordinary rotation; it keeps the order and the number of the
    vertices. *)
Theorem display_transform_is_rotation
        (points : list (R * R)) (cant_mm curve_radius_m measurement_distance : R) :
  transform_clearance_excel_display_method
    points cant_mm curve_radius_m measurement_distance
  = map (fun pt =>
           let q := rotate (atan (cant_mm / 1067))
                           (widen_coordinate (inline_widening curve_radius_m)
                                             (fst pt)
                            + measurement_distance, snd pt) in
           (fst q - measurement_distance, snd q))
        points
  /\ List.length (transform_clearance_excel_display_method
                    points cant_mm curve_radius_m measurement_distance)
     = List.length points.
Proof.
  split; [apply display_transform_map|].
  rewrite display_transform_map; apply length_map.
Qed.

(** ** The model's own required clearance *)

Lemma sin_atan_bound (t : R) : Rabs (sin (atan t)) <= Rabs t.
Proof.
  rewrite sin_atan.
  assert (Hq0 : 1 <= 1 + t²) by (unfold Rsqr; nra).
  assert (Hq : 1 <= sqrt (1 + t²)).
  { rewrite <- sqrt_1 at 1; apply sqrt_le_1_alt; exact Hq0. }
  unfold Rdiv; rewrite Rabs_mult.
  rewrite (Rabs_right (/ sqrt (1 + t²))).
  - assert (Hp : 0 < / sqrt (1 + t²)) by (apply Rinv_0_lt_compat; lra).
    assert (Ei : sqrt (1 + t²) * / sqrt (1 + t²) = 1) by (apply Rinv_r; lra).
    assert (Hi : / sqrt (1 + t²) <= 1) by nra.
    pose proof (Rabs_pos t); nra.
  - apply Rle_ge; left; apply Rinv_0_lt_compat; lra.
Qed.

(** X3: reversing the cant negates the cant correction, and the correction
    never exceeds [|height| * |cant| / 1067] in size. *)
Theorem cant_correction_odd_and_bounded (height cant_mm : R) :
  calculate_cant_correction height (- cant_mm)
  = - calculate_cant_correction height cant_mm
  /\ Rabs (calculate_cant_correction height cant_mm)
     <= Rabs height * (Rabs cant_mm / 1067).
Proof.
  unfold calculate_cant_correction, ClearanceModelV22.rail_gauge; split.
  - destruct (Req_dec_T cant_mm 0) as [-> | Hc].
    + rewrite Ropp_0; destruct (Req_dec_T 0 0); lra.
    + destruct (Req_dec_T (- cant_mm) 0); [lra|].
      replace (- cant_mm / 1067) with (- (cant_mm / 1067)) by lra.
      rewrite atan_opp, sin_neg; ring.
  - destruct (Req_dec_T cant_mm 0) as [-> | Hc].
    + rewrite !Rabs_R0; pose proof (Rabs_pos height); lra.
    + rewrite Rabs_mult.
      apply Rmult_le_compat_l; [apply Rabs_pos|].
      eapply Rle_trans; [apply sin_atan_bound|].
      unfold Rdiv; rewrite Rabs_mult, (Rabs_right (/ 1067)); lra.
Qed.

(** X4: with cant 0, a radius that is not negative and a height of 0 or of
    375 and more, the model's [calculate_required_clearance] and the
    evaluator's [calculate_required_clearance_excel_method] give the same
    value, at every offset. *)
Theorem required_clearance_methods_agree (offset_mm height_mm radius_m : R) :
  0 <= radius_m ->
  height_mm = 0 \/ 375 <= height_mm ->
  calculate_required_clearance height_mm 0 radius_m
  = Fin (calculate_required_clearance_excel_method offset_mm height_mm 0 radius_m).
Proof.
  intros Hr Hh.
  unfold calculate_required_clearance, calculate_cant_correction,
    calculate_curve_widening.
  rewrite base_clearance_nonneg by lra; cbn [fl_add].
  unfold calculate_required_clearance_excel_method,
    coordinate_transform_to_rail_center.
  destruct (Req_dec_T 0 0) as [_ | H]; [| lra].
  f_equal.
  assert (Ew : (if Req_dec_T radius_m 0 then 0 else 23000 / radius_m)
               = (if Rlt_dec 0 radius_m then 23000 / radius_m else 0)).
  { destruct (Req_dec_T radius_m 0); destruct (Rlt_dec 0 radius_m); lra. }
  rewrite Ew.
  destruct Hh as [-> | Hh]; unfold base_profile.
  - destruct (Rlt_dec 0 25); [| lra]. destruct (Rle_dec 0 350); lra.
  - repeat match goal with
           | |- context [Rlt_dec height_mm ?c] =>
             destruct (Rlt_dec height_mm c); try lra
           end;
      repeat match goal with
             | |- context [Rlt_dec ?a 0] => destruct (Rlt_dec a 0)
             end; lra.
Qed.

Lemma required_clearance_methods_agree_witness :
  0 <= 160 /\ (1000 = 0 \/ 375 <= 1000) /\
  calculate_required_clearance 1000 0 160
  = Fin (calculate_required_clearance_excel_method 1950 1000 0 160).
Proof.
  split; [lra|]; split; [right; lra|].
  apply (required_clearance_methods_agree 1950 1000 160); [lra | right; lra].
Defined.

(** ** The evaluation: dead zone, classification and bounds *)

(** The corrected margin as a number, with its bounds. *)
Lemma corrected_margin_bounds (a : R) :
  0 <= a ->
  exists v,
    (if Rlt_dec a 5 then Fin 0
     else if Rlt_dec a 13 then Fin (sqrt (a ^ 2 - 25)) else Fin a) = Fin v /\
    0 <= v <= a /\ (a < 5 -> v = 0) /\ (a = 5 -> v = 0) /\ (5 < a -> 0 < v).
Proof.
  intros Ha.
  destruct (Rlt_dec a 5) as [H5 | H5].
  - exists 0; repeat split; intros; lra.
  - destruct (Rlt_dec a 13) as [H13 | H13].
    + exists (sqrt (a ^ 2 - 25)); split; [reflexivity|].
      assert (Hr : 0 <= a ^ 2 - 25) by nra.
      pose proof (sqrt_pos (a ^ 2 - 25)) as Hs.
      pose proof (sqrt_sqrt _ Hr) as Es.
      repeat split; intros; try lra; nra.
    + exists a; repeat split; intros; lra.
Qed.



(** X7: the reported margin is never negative and never more than the raw
    nearest distance rounded up; the corrected margin lies between 0 and
    the raw nearest distance. *)
Theorem margin_bounds (offset_mm height_mm cant_mm radius_m : R) :
  exists res a v,
    calculate_all_excel_method offset_mm height_mm cant_mm radius_m = Some res /\
    ag2_distance res = Fin a /\
    corrected_margin (details res) = Fin v /\
    0 <= v <= a /\
    (0 <= clearance_margin res <= Zceil a)%Z.
Proof.
  destruct (all_total offset_mm height_mm cant_mm radius_m)
    as [res [m [Eres [Em [Ed [_ [Ef [Eag _]]]]]]]].
  destruct (margin_total offset_mm height_mm cant_mm radius_m)
    as [m' [a [Em' [_ [Ha [Ea [Ec [_ [_ Er]]]]]]]]].
  rewrite Em in Em'; injection Em' as <-.
  destruct (corrected_margin_bounds a Ha) as [v [Ev [Hv _]]].
  rewrite Ev in Ec.
  exists res, a, v; rewrite Ed, Ef, Eag.
  split; [exact Eres|]; split; [exact Ea|]; split; [exact Ec|].
  split; [exact Hv|].
  rewrite Ec in Er; cbn [math_ceil math_floor] in Er.
  assert (H0 : (0 <= Zfloor v)%Z) by (apply Zfloor_lub; lra).
  assert (Hfc : (Zfloor v <= Zceil v)%Z).
  { apply le_IZR; pose proof (Zfloor_ceil_bound v); lra. }
  assert (Hca : (Zceil v <= Zceil a)%Z) by (apply Zceil_le; lra).
  destruct (is_interference m); injection Er as ->; lia.
Qed.

(** ** The reference data, the nearest distance and the inside test *)

Lemma base_profile_nonneg (h : R) : 0 <= base_profile h.
Proof.
  unfold base_profile.
  repeat match goal with
         | |- context [Rlt_dec ?a ?b] => destruct (Rlt_dec a b)
         end; try lra; apply sqrt_pos.
Qed.

Lemma inline_widening_nonneg (r : R) : 0 <= inline_widening r.
Proof.
  unfold inline_widening; destruct (Rlt_dec 0 r); [| lra].
  left; apply Rdiv_lt_0_compat; lra.
Qed.

Lemma in_linspace_le (lo stop : R) (num : nat) (h : R) :
  lo <= stop -> (1 < num)%nat -> In h (linspace lo stop num) -> h <= stop.
Proof.
  intros Hs Hn Hin; unfold linspace in Hin.
  apply in_map_iff in Hin; destruct Hin as [i [<- Hi]].
  apply in_seq in Hi.
  assert (Hp : 0 < INR (num - 1)) by (apply lt_0_INR; lia).
  assert (Hi' : INR i <= INR (num - 1)) by (apply le_INR; lia).
  assert (E : INR (num - 1) * ((stop - lo) / INR (num - 1)) = stop - lo)
    by (field; lra).
  assert (0 <= (stop - lo) / INR (num - 1)).
  { apply Rmult_le_pos; [lra|]. left; apply Rinv_0_lt_compat; exact Hp. }
  nra.
Qed.

(** X8: the raw nearest distance of an evaluation is the least of the
    distances from the rail-centre point to the 1775 reference samples: no
    sample is nearer, and one sample is exactly that far. *)
Theorem ag2_is_least_sample_distance
        (offset_mm height_mm cant_mm radius_m : R) :
  exists res a data,
    calculate_all_excel_method offset_mm height_mm cant_mm radius_m = Some res /\
    ag2_distance res = Fin a /\
    _create_clearance_data_with_widening radius_m = Some data /\
    List.length data = 1775%nat /\
    (forall p, In p data ->
       a <= sample_distance
              (fst (coordinate_transform_to_rail_center offset_mm height_mm cant_mm))
              (snd (coordinate_transform_to_rail_center offset_mm height_mm cant_mm))
              p) /\
    (exists p, In p data /\
       a = sample_distance
             (fst (coordinate_transform_to_rail_center offset_mm height_mm cant_mm))
             (snd (coordinate_transform_to_rail_center offset_mm height_mm cant_mm))
             p).
Proof.
  destruct (all_total offset_mm height_mm cant_mm radius_m)
    as [res [m [Eres [Em [_ [_ [_ [Eag _]]]]]]]].
  destruct (margin_total offset_mm height_mm cant_mm radius_m)
    as [m' [a [Em' [Eag2 [_ [Ea _]]]]]].
  rewrite Em in Em'; injection Em' as <-.
  destruct (ag2_value offset_mm height_mm cant_mm radius_m)
    as [a' [Ea' [_ [Hle Hex]]]].
  rewrite Eag2 in Ea'; injection Ea' as <-.
  exists res, a; eexists.
  split; [exact Eres|]. split; [rewrite Eag; exact Ea|].
  split; [apply clearance_data_value|].
  split; [rewrite length_map; apply linspace_length|].
  split; [exact Hle | exact Hex].
Qed.

(** X9: the inside test does not look at the side of the track
    ([x] and [-x] are classified alike), and a point inside the envelope of
    tangent track is inside the widened envelope of every curve. *)
Theorem inside_test_symmetric_and_monotone (x y radius_m : R) :
  _is_point_inside_building_clearance (- x) y radius_m
  = _is_point_inside_building_clearance x y radius_m
  /\ (_is_point_inside_building_clearance x y 0 = true ->
      _is_point_inside_building_clearance x y radius_m = true).
Proof.
  destruct (Rlt_dec y 0) as [Hy | Hy].
  { rewrite !inside_out_of_range by (left; exact Hy).
    split; [reflexivity | discriminate]. }
  destruct (Rlt_dec 5700 y) as [Hy' | Hy'].
  { rewrite !inside_out_of_range by (right; exact Hy').
    split; [reflexivity | discriminate]. }
  rewrite !inside_in_range by lra; rewrite Rabs_Ropp.
  split; [reflexivity|].
  intros H; apply Rltb_true in H; apply Rltb_true.
  pose proof (inline_widening_nonneg radius_m).
  assert (inline_widening 0 = 0).
  { unfold inline_widening; destruct (Rlt_dec 0 0); lra. }
  lra.
Qed.

(** X10: every reference sample lies exactly on the boundary of the inside
    test at its own height: a point at that height is inside precisely when
    it is nearer to the track centre line than the sample. *)
Theorem samples_lie_on_inside_boundary (radius_m : R) :
  exists data,
    _create_clearance_data_with_widening radius_m = Some data /\
    forall c h, In (c, h) data ->
      0 <= h <= 5700 /\
      forall x, _is_point_inside_building_clearance x h radius_m = true
                <-> Rabs x < c.
Proof.
  eexists; split; [apply clearance_data_value|].
  intros c h Hin; apply in_map_iff in Hin.
  destruct Hin as [h' [E Hh]]; injection E as <- <-.
  assert (H0 : 0 <= h').
  { apply (in_linspace_ge 0 5700 1775); [lra | lia | exact Hh]. }
  assert (H1 : h' <= 5700).
  { apply (in_linspace_le 0 5700 1775); [lra | lia | exact Hh]. }
  split; [lra|].
  intros x; rewrite inside_in_range by lra; apply Rltb_true.
Qed.

Lemma inline_widening_nonpositive (r : R) :
  r <= 0 -> inline_widening r = inline_widening 0.
Proof.
  intros Hr; unfold inline_widening.
  destruct (Rlt_dec 0 r); [lra|]. destruct (Rlt_dec 0 0); [lra | reflexivity].
Qed.

(** X11: a radius of zero or less is treated as tangent track throughout:
    the whole result of the evaluation is the one of radius 0. *)
Theorem nonpositive_radius_is_tangent
        (offset_mm height_mm cant_mm radius_m : R) :
  radius_m <= 0 ->
  calculate_all_excel_method offset_mm height_mm cant_mm radius_m
  = calculate_all_excel_method offset_mm height_mm cant_mm 0.
Proof.
  intros Hr.
  assert (Ew : forall A (u v : A),
             (if Rlt_dec 0 radius_m then u else v)
             = (if Rlt_dec 0 0 then u else v)).
  { intros A u v; destruct (Rlt_dec 0 radius_m); [lra|].
    destruct (Rlt_dec 0 0); [lra | reflexivity]. }
  assert (Ereq : calculate_required_clearance_excel_method
                   offset_mm height_mm cant_mm radius_m
                 = calculate_required_clearance_excel_method
                     offset_mm height_mm cant_mm 0).
  { unfold calculate_required_clearance_excel_method.
    destruct (coordinate_transform_to_rail_center offset_mm height_mm cant_mm).
    destruct (Rlt_dec 0 radius_m); [lra|].
    destruct (Rlt_dec 0 0); [lra | reflexivity]. }
  assert (Edata : _create_clearance_data_with_widening radius_m
                  = _create_clearance_data_with_widening 0).
  { rewrite !clearance_data_value, (inline_widening_nonpositive _ Hr).
    reflexivity. }
  assert (Ein : forall x y,
             _is_point_inside_building_clearance x y radius_m
             = _is_point_inside_building_clearance x y 0).
  { intros x y; unfold _is_point_inside_building_clearance.
    destruct (Rlt_dec 0 radius_m); [lra|].
    destruct (Rlt_dec 0 0); [lra | reflexivity]. }
  unfold calculate_all_excel_method, calculate_clearance_margin_excel_method,
    calculate_ag2_excel_method.
  rewrite Ereq, Edata.
  destruct (coordinate_transform_to_rail_center offset_mm height_mm cant_mm)
    as [rx ry].
  rewrite Ein; reflexivity.
Qed.

Lemma nonpositive_radius_is_tangent_witness :
  -300 <= 0 /\
  calculate_all_excel_method 1950 3560 100 (-300)
  = calculate_all_excel_method 1950 3560 100 0.
Proof.
  split; [lra | apply nonpositive_radius_is_tangent; lra].
Defined.



(** ** The envelope polygon is closed and mirrored *)

(** X14: the polygon starts and ends at the vertex (1225, 0), and every
    vertex other than (1225, 0) has its mirror image among the vertices. *)
Theorem envelope_closed_and_mirrored :
  hd_error create_accurate_clearance = Some (1225, 0) /\
  last create_accurate_clearance (0, 0) = (1225, 0) /\
  forall x y,
    In (x, y) create_accurate_clearance ->
    (x, y) <> (1225, 0) ->
    In (- x, y) create_accurate_clearance.
Proof.
  split; [rewrite create_accurate_clearance_shape; reflexivity|].
  split; [| apply mirror_present_except_base].
  rewrite create_accurate_clearance_shape.
  rewrite app_comm_cons, !app_assoc; apply last_last.
Qed.

(** ** class BuildingLimitCalculatorFixed: slack, cant angle, displacement *)

(** X15: the slack is one of 0, 5, 10, 15, 20 mm and never grows with the
    radius; it vanishes exactly above 440 m.  The tangent-track marker,
    radius 0, gets no expansion width but the full 20 mm of slack. *)
Theorem slack_is_antitone (r1 r2 : R) :
  (r1 <= r2 -> calculate_slack r2 <= calculate_slack r1) /\
  0 <= calculate_slack r1 <= 20 /\
  (calculate_slack r1 = 0 <-> 440 < r1) /\
  calculate_expansion_width 0 = 0 /\ calculate_slack 0 = 20.
Proof.
  unfold calculate_slack, calculate_expansion_width.
  assert (E : Reqb 0 0 = true) by (apply Reqb_true; reflexivity).
  rewrite E; cbn [orb].
  repeat split; intros;
    repeat match goal with
           | |- context [Rlt_dec ?a ?b] => destruct (Rlt_dec a b)
           | |- context [Rle_dec ?a ?b] => destruct (Rle_dec a b)
           | H : context [Rlt_dec ?a ?b] |- _ => destruct (Rlt_dec a b)
           | H : context [Rle_dec ?a ?b] |- _ => destruct (Rle_dec a b)
           end; lra.
Qed.

Lemma cant_angle_trig (cant : R) :
  cos (calculate_cant_angle cant) = cos (atan (cant / 1067)) /\
  sin (calculate_cant_angle cant) = sin (atan (cant / 1067)).
Proof.
  unfold calculate_cant_angle, gauge.
  destruct (Rlt_dec cant 0); [| split; reflexivity].
  replace (atan (cant / 1067) + 2 * PI)
    with (atan (cant / 1067) + 2 * INR 1 * PI) by (cbn [INR]; lra).
  rewrite cos_period, sin_period; split; reflexivity.
Qed.

(** X17: for a point at or above rail level the lateral displacement
    never moves the point outward, whatever the cant: [Li <= x]. *)
Theorem displacement_never_outward (x y cant : R) :
  0 <= y -> fst (calculate_displacement x y cant) <= x.
Proof.
  intros Hy; unfold calculate_displacement.
  destruct (cant_angle_trig cant) as [Ec _].
  pose proof (COS_bound (atan (cant / 1067))) as Hb.
  destruct (Req_dec_T cant 0) as [-> | Hc]; cbn [fst]; [lra|].
  rewrite Ec; nra.
Qed.

Lemma displacement_never_outward_witness :
  0 <= 3156 /\ fst (calculate_displacement 1900 3156 (-12)) <= 1900.
Proof.
  split; [lra | apply (displacement_never_outward 1900 3156 (-12)); lra].
Defined.

(** ** class BuildingLimitCalculatorFixed: transformed outline and checks *)

Lemma transformed_without_cant_map
      (basic_coordinates : list (R * R)) (radius : R) :
  snd (calculate_transformed_coordinates basic_coordinates radius 0)
  = map (fun p =>
           (widen_coordinate
              (calculate_expansion_width radius + calculate_slack radius / 2)
              (fst p),
            snd p))
        basic_coordinates.
Proof.
  unfold calculate_transformed_coordinates; cbn [fst snd].
  apply map_ext; intros [x y]; cbn [fst snd].
  unfold transform_coordinate, calculate_displacement, widen_coordinate.
  destruct (Req_dec_T 0 0) as [_ | H]; [| lra].
  unfold Rltb.
  destruct (Rlt_dec 0 x); [f_equal; lra|].
  destruct (Rlt_dec x 0); f_equal; lra.
Qed.

(** X18: [calculate_transformed_coordinates] returns the basic outline
    untouched and a transformed outline of the same length; without cant
    the transformed outline is the basic one with every vertex moved
    outward by the expansion width plus half the slack, heights unchanged,
    and vertices on the centre line left where they are. *)
Theorem transformed_coordinates_without_cant
        (basic_coordinates : list (R * R)) (radius cant : R) :
  fst (calculate_transformed_coordinates basic_coordinates radius cant)
  = basic_coordinates /\
  List.length (snd (calculate_transformed_coordinates
                      basic_coordinates radius cant))
  = List.length basic_coordinates /\
  snd (calculate_transformed_coordinates basic_coordinates radius 0)
  = map (fun p =>
           (widen_coordinate
              (calculate_expansion_width radius + calculate_slack radius / 2)
              (fst p),
            snd p))
        basic_coordinates.
Proof.
  split; [reflexivity|]; split; [| apply transformed_without_cant_map].
  unfold calculate_transformed_coordinates; cbn [snd]; apply length_map.
Qed.

Lemma crossing_scan_positive (height : R) (coords : list (R * R)) :
  forall m,
    (m = Inf \/ exists v, m = Fin v /\ 0 < v) ->
    crossing_scan height m coords = Inf
    \/ exists v, crossing_scan height m coords = Fin v /\ 0 < v.
Proof.
  induction coords as [| [x1 y1] rest IH]; intros m Hm; [exact Hm|].
  destruct rest as [| [x2 y2] rest']; [exact Hm|].
  cbn [crossing_scan]; apply IH.
  destruct (Rleb (Rmin y1 y2) height && Rleb height (Rmax y1 y2)
            && negb (Reqb y1 y2)); [| exact Hm].
  destruct (Rltb 0 (x1 + (height - y1) / (y2 - y1) * (x2 - x1))) eqn:E;
    [| exact Hm].
  apply Rltb_true in E; right.
  destruct Hm as [-> | [v [-> Hv]]]; cbn [fl_min].
  - eexists; split; [reflexivity | exact E].
  - eexists; split; [reflexivity|].
    unfold Rmin; destruct (Rle_dec v _); assumption.
Qed.

Lemma required_at_height_nonneg
      (basic_coordinates : list (R * R)) (height radius cant : R) :
  0 <= calculate_required_clearance_at_height
         basic_coordinates height radius cant.
Proof.
  unfold calculate_required_clearance_at_height,
    calculate_transformed_coordinates.
  destruct (crossing_scan_positive
              height
              (map (transform_coordinate (calculate_expansion_width radius)
                                         (calculate_slack radius) cant)
                   basic_coordinates) Inf (or_introl eq_refl))
    as [-> | [v [-> Hv]]]; lra.
Qed.

(** X19: whatever the outline, the required clearance at a height is never
    negative and never infinite: it is 0 when no edge with a positive
    crossing spans the height; and an outline with fewer than two vertices
    always gives 0. *)
Theorem required_clearance_at_height_nonnegative
        (basic_coordinates : list (R * R)) (height radius cant : R) :
  0 <= calculate_required_clearance_at_height
         basic_coordinates height radius cant
  /\ ((List.length basic_coordinates < 2)%nat ->
      calculate_required_clearance_at_height
        basic_coordinates height radius cant = 0).
Proof.
  split; [apply required_at_height_nonneg|].
  intros Hl; unfold calculate_required_clearance_at_height,
               calculate_transformed_coordinates.
  destruct basic_coordinates as [| p [| q rest]]; cbn in Hl; try lia.
  - reflexivity.
  - cbn [map crossing_scan]; destruct (transform_coordinate _ _ _ p);
      reflexivity.
Qed.

(** X20: the clearance margin depends on the measured offset only through
    its absolute value: it is [|offset| - required clearance] on either side
    of the track, and the check reports an interference exactly when
    [|offset|] is below the required clearance. *)
Theorem clearance_margin_symmetric
        (basic_coordinates : list (R * R))
        (measurement_distance measurement_height radius cant : R) :
  calculate_clearance_margin
    basic_coordinates measurement_distance measurement_height radius cant
  = Rabs measurement_distance
    - calculate_required_clearance_at_height
        basic_coordinates measurement_height radius cant
  /\ (chk_is_interference
        (check_clearance basic_coordinates
                         measurement_distance measurement_height radius cant)
      = true
      <-> Rabs measurement_distance
          < calculate_required_clearance_at_height
              basic_coordinates measurement_height radius cant).
Proof.
  assert (E : calculate_clearance_margin
                basic_coordinates measurement_distance measurement_height
                radius cant
              = Rabs measurement_distance
                - calculate_required_clearance_at_height
                    basic_coordinates measurement_height radius cant).
  { unfold calculate_clearance_margin.
    pose proof (required_at_height_nonneg
                  basic_coordinates measurement_height radius cant) as Hr.
    destruct (Rle_dec 0 measurement_distance).
    - rewrite Rabs_right by lra; reflexivity.
    - rewrite (Rabs_right (calculate_required_clearance_at_height _ _ _ _))
        by lra; reflexivity. }
  split; [exact E|].
  unfold check_clearance, calculate_transformed_coordinates.
  destruct (fold_left _ _ _) as [md np]; cbn [chk_is_interference].
  rewrite E; split; intros H.
  - apply Rltb_true in H; lra.
  - apply Rltb_true; lra.
Qed.

Lemma nearest_step_cases (md mh : R) (st : pyfloat * option (R * R))
      (pt : R * R) :
  nearest_step md mh st pt
  = if ltb_fl (sqrt ((fst pt - md) ^ 2 + (snd pt - mh) ^ 2)) (fst st)
    then (Fin (sqrt ((fst pt - md) ^ 2 + (snd pt - mh) ^ 2)), Some pt)
    else st.
Proof. destruct st, pt; reflexivity. Qed.

Lemma nearest_fold_invariant (md mh : R) (l : list (R * R)) :
  forall seen st,
    (st = (Inf, None) /\ seen = []
     \/ exists p, st = (Fin (sqrt ((fst p - md) ^ 2 + (snd p - mh) ^ 2)), Some p)
                  /\ In p seen
                  /\ forall q, In q seen ->
                               sqrt ((fst p - md) ^ 2 + (snd p - mh) ^ 2)
                               <= sqrt ((fst q - md) ^ 2 + (snd q - mh) ^ 2)) ->
    (fold_left (nearest_step md mh) l st = (Inf, None) /\ seen ++ l = []
     \/ exists p, fold_left (nearest_step md mh) l st
                  = (Fin (sqrt ((fst p - md) ^ 2 + (snd p - mh) ^ 2)), Some p)
                  /\ In p (seen ++ l)
                  /\ forall q, In q (seen ++ l) ->
                               sqrt ((fst p - md) ^ 2 + (snd p - mh) ^ 2)
                               <= sqrt ((fst q - md) ^ 2 + (snd q - mh) ^ 2)).
Proof.
  induction l as [| a l IH]; intros seen st Hst.
  - rewrite app_nil_r; exact Hst.
  - cbn [fold_left].
    replace (seen ++ a :: l) with ((seen ++ [a]) ++ l)
      by (rewrite <- app_assoc; reflexivity).
    apply IH; right; rewrite nearest_step_cases.
    destruct Hst as [[-> ->] | [p [-> [Hp Hmin]]]]; cbn [fst ltb_fl].
    + exists a; split; [reflexivity|]; split; [left; reflexivity|].
      intros q [<- | []]; lra.
    + unfold Rltb; destruct (Rlt_dec _ _) as [Hlt | Hge].
      * exists a; split; [reflexivity|].
        split; [apply in_or_app; right; left; reflexivity|].
        intros q Hq; apply in_app_or in Hq; destruct Hq as [Hq | [<- | []]].
        -- specialize (Hmin q Hq); lra.
        -- lra.
      * exists p; split; [reflexivity|].
        split; [apply in_or_app; left; exact Hp|].
        intros q Hq; apply in_app_or in Hq; destruct Hq as [Hq | [<- | []]].
        -- apply Hmin; exact Hq.
        -- lra.
Qed.

(** X21: [check_clearance] reports as nearest point a vertex of the
    transformed outline at which the distance to the measurement point is
    least, with that distance as [min_distance]; only for an empty outline
    does it report no point and an infinite distance. *)
Theorem check_clearance_nearest_point
        (basic_coordinates : list (R * R))
        (measurement_distance measurement_height radius cant : R) :
  let res := check_clearance basic_coordinates
                             measurement_distance measurement_height
                             radius cant in
  (basic_coordinates = [] ->
   chk_nearest_point res = None /\ chk_min_distance res = Inf) /\
  (basic_coordinates <> [] ->
   exists p,
     chk_nearest_point res = Some p /\
     In p (chk_transformed_coordinates res) /\
     chk_min_distance res
     = Fin (sqrt ((fst p - measurement_distance) ^ 2
                  + (snd p - measurement_height) ^ 2)) /\
     forall q, In q (chk_transformed_coordinates res) ->
               sqrt ((fst p - measurement_distance) ^ 2
                     + (snd p - measurement_height) ^ 2)
               <= sqrt ((fst q - measurement_distance) ^ 2
                        + (snd q - measurement_height) ^ 2)).
Proof.
  cbv zeta; unfold check_clearance, calculate_transformed_coordinates.
  set (tc := map _ basic_coordinates).
  pose proof (nearest_fold_invariant
                measurement_distance measurement_height tc [] (Inf, None)
                (or_introl (conj eq_refl eq_refl))) as H.
  cbn [app] in H.
  destruct (fold_left _ tc (Inf, None)) as [md np];
    cbn [chk_nearest_point chk_min_distance chk_transformed_coordinates].
  split.
  - intros ->; destruct H as [[E _] | [p [_ [[] _]]]].
    injection E as -> ->; split; reflexivity.
  - intros Hne; destruct H as [[_ E] | [p [E [Hp Hmin]]]].
    + exfalso; apply Hne; unfold tc in E.
      destruct basic_coordinates; [reflexivity | discriminate E].
    + injection E as -> ->; exists p; repeat split; assumption.
Qed.

(** ** The standard outline *)

Lemma load_direct_current :
  load_basic_building_limit_data "直流"%string = standard_coordinates.
Proof. reflexivity. Qed.

Lemma widen_coordinate_right (w x : R) : 0 < x -> widen_coordinate w x = x + w.
Proof. intros; unfold widen_coordinate; rcases. Qed.

Lemma widen_coordinate_left (w x : R) : x < 0 -> widen_coordinate w x = x - w.
Proof. intros; unfold widen_coordinate; rcases. Qed.

Lemma widen_coordinate_centre (w : R) : widen_coordinate w 0 = 0.
Proof. unfold widen_coordinate; rcases. Qed.

Lemma crossing_scan_step (h : R) (m : pyfloat) (x1 y1 x2 y2 : R)
      (rest : list (R * R)) :
  crossing_scan h m ((x1, y1) :: (x2, y2) :: rest)
  = crossing_scan h
      (if Rleb (Rmin y1 y2) h && Rleb h (Rmax y1 y2) && negb (Reqb y1 y2)
       then (if Rltb 0 (x1 + (h - y1) / (y2 - y1) * (x2 - x1))
             then fl_min m (x1 + (h - y1) / (y2 - y1) * (x2 - x1)) else m)
       else m)
      ((x2, y2) :: rest).
Proof. reflexivity. Qed.

Lemma expansion_and_slack_nonneg (radius : R) :
  0 <= radius ->
  0 <= calculate_expansion_width radius + calculate_slack radius / 2.
Proof.
  intros Hr.
  assert (0 <= calculate_slack radius).
  { unfold calculate_slack; rcases. }
  assert (0 <= calculate_expansion_width radius); [| lra].
  unfold calculate_expansion_width.
  destruct (Reqb radius 0) eqn:E0; cbn [orb]; [lra|].
  destruct (Rltb 10000 radius); [lra|].
  assert (radius <> 0).
  { intros ->; unfold Reqb in E0; destruct (Req_dec_T 0 0); [discriminate | lra]. }
  left; apply Rdiv_lt_0_compat; lra.
Qed.

(** Settles one comparison of the scan whose outcome the context fixes. *)
Ltac settle_comparison :=
  match goal with
  | |- context [Rleb ?a ?b] =>
    first [ rewrite (proj2 (Rleb_true a b))
              by (unfold Rmin, Rmax; repeat destruct (Rle_dec _ _); lra)
          | rewrite (proj2 (Rleb_false a b))
              by (unfold Rmin, Rmax; repeat destruct (Rle_dec _ _); lra) ]
  | |- context [Reqb ?a ?b] =>
    first [ rewrite (proj2 (Reqb_true a b)) by lra
          | replace (Reqb a b) with false
              by (unfold Reqb; destruct (Req_dec_T a b); [lra | reflexivity]) ]
  | |- context [Rltb ?a ?b] =>
    first [ rewrite (proj2 (Rltb_true a b)) by lra
          | rewrite (proj2 (Rltb_false a b)) by lra ]
  end; cbn [andb negb fl_min].

Ltac run_scan :=
  repeat (rewrite crossing_scan_step; repeat settle_comparison);
  cbn [crossing_scan];
  unfold Rmin; repeat destruct (Rle_dec _ _); lra.

(** X22: on the standard (direct-current) outline, without cant and for a
    radius that is not negative, the required clearance at a height is the
    half-width of the right-hand outline at that height plus the expansion
    width and half the slack; a height below rail level or above the top of
    the outline (5190.6) gives 0. *)
Theorem standard_outline_required_clearance (height radius : R) :
  0 <= radius ->
  let s := calculate_expansion_width radius + calculate_slack radius / 2 in
  let required :=
    calculate_required_clearance_at_height
      (load_basic_building_limit_data "直流"%string) height radius 0 in
  (height < 0 \/ 25953 / 5 < height -> required = 0) /\
  (0 <= height < 350 -> required = 1225 + height + s) /\
  (350 <= height <= 920 -> required = 1575 + s) /\
  (920 < height <= 2150 -> required = 1900 + s) /\
  (2150 < height < 3156 ->
   required = 2733 / 2 + (3156 - height) * (1067 / 2) / 1006 + s) /\
  (3156 <= height <= 25953 / 5 -> required = 2733 / 2 + s).
Proof.
  intros Hr; cbv zeta.
  pose proof (expansion_and_slack_nonneg radius Hr) as Hs.
  rewrite load_direct_current.
  unfold calculate_required_clearance_at_height.
  pose proof (transformed_without_cant_map standard_coordinates radius) as E.
  destruct (calculate_transformed_coordinates standard_coordinates radius 0)
    as [bc tc].
  cbn [snd] in E; subst tc.
  set (s := calculate_expansion_width radius + calculate_slack radius / 2) in *.
  unfold standard_coordinates; cbn [map fst snd].
  repeat match goal with
         | |- context [widen_coordinate ?w ?x] =>
           first [ rewrite (widen_coordinate_right w x) by lra
                 | rewrite (widen_coordinate_left w x) by lra
                 | rewrite (widen_coordinate_centre w) ]
         end.
  destruct (Rlt_dec height 0);
    [| destruct (Req_dec_T height 0); [subst height|
    destruct (Rlt_dec height 350); [| destruct (Req_dec_T height 350); [subst height|
    destruct (Rlt_dec height 920); [| destruct (Req_dec_T height 920); [subst height|
    destruct (Rlt_dec height 1900); [| destruct (Req_dec_T height 1900); [subst height|
    destruct (Rlt_dec height 2150); [| destruct (Req_dec_T height 2150); [subst height|
    destruct (Rlt_dec height 3156); [| destruct (Req_dec_T height 3156); [subst height|
    destruct (Rlt_dec height (25953 / 5)); [| destruct (Req_dec_T height (25953 / 5)); [subst height|]]]]]]]]]]]]]].
  all: repeat split; intros Hb; try (exfalso; lra).
  all: run_scan.
Qed.

Lemma standard_outline_required_clearance_witness :
  0 <= 160 /\
  calculate_required_clearance_at_height
    (load_basic_building_limit_data "直流"%string) 1000 160 0
  = 1900 + (calculate_expansion_width 160 + calculate_slack 160 / 2).
Proof.
  split; [lra|].
  pose proof (standard_outline_required_clearance 1000 160) as H.
  cbv zeta in H; apply H; lra.
Defined.

(** ** The extent of the envelope polygon *)

Lemma outline_body_box (p : R * R) :
  In p outline_body -> snd p <= 5700 /\ fst p <= 1901.
Proof.
  intros Hin; apply in_outline_body in Hin.
  destruct Hin as [Hin | [Hin | [Hin | [Hin | [Hin | Hin]]]]].
  - destruct Hin as [<- | []]; cbn; lra.
  - unfold slope_points in Hin; apply in_map_iff in Hin.
    destruct Hin as [h [<- Hh]]; cbn [fst snd].
    pose proof (in_linspace_le 25 375 10 h ltac:(lra) ltac:(lia) Hh).
    lra.
  - cbn in Hin; intuition (subst p; cbn; lra).
  - unfold arc_points in Hin; apply in_flat_map in Hin.
    destruct Hin as [h [Hh Hin]].
    pose proof (in_linspace_ge 3156 3823 100 h ltac:(lra) ltac:(lia) Hh).
    pose proof (in_linspace_le 3156 3823 100 h ltac:(lra) ltac:(lia) Hh).
    destruct (Rle_dec 0 (2150 ^ 2 - (h - 2150) ^ 2)); [| destruct Hin].
    destruct Hin as [<- | []]; cbn [fst snd]; split; [lra|].
    left; apply sqrt_below; [assumption | lra | nra].
  - cbn in Hin; intuition (subst p; cbn; lra).
  - rewrite upper_arc_start_angle in Hin; apply in_flat_map in Hin.
    destruct Hin as [i [Hi Hin]]; cbv zeta in Hin.
    match type of Hin with
    | In _ (if ?b then _ else _) => destruct b eqn:Eb; [| destruct Hin]
    end.
    destruct Hin as [<- | []]; cbn [fst snd].
    apply andb_prop in Eb; destruct Eb as [Eb _].
    apply andb_prop in Eb; destruct Eb as [E1 E2].
    apply Rleb_true in E1; apply Rleb_true in E2.
    split; [lra|].
    revert E1; unfold Rabs; destruct Rcase_abs; lra.
Qed.

(** X23: every vertex of the envelope polygon lies between rail level and
    5700 mm and within 1901 mm of the centre line; the bound 1900 would be
    too small, because the first vertex of the shoulder arc is at
    sqrt(3610464) > 1900. *)
Theorem envelope_extent :
  (forall x y, In (x, y) create_accurate_clearance ->
               0 <= y <= 5700 /\ Rabs x <= 1901) /\
  (exists x y, In (x, y) create_accurate_clearance /\ 1900 < x).
Proof.
  split.
  - intros x y Hin; apply in_create_accurate_clearance in Hin.
    destruct Hin as [E | [Hin | [Hin | Hin]]].
    + injection E as -> ->; rewrite Rabs_right by lra; lra.
    + destruct (outline_body_bounds _ Hin) as [H1 H2].
      destruct (outline_body_box _ Hin) as [H3 H4].
      cbn [fst snd] in *; rewrite Rabs_right by lra; lra.
    + cbn in Hin; destruct Hin as [E | [E | []]]; injection E as <- <-;
        (split; [lra|]); unfold Rabs; destruct Rcase_abs; lra.
    + apply in_map_iff in Hin; destruct Hin as [q [E Hq]].
      apply in_rev, filter_In in Hq; destruct Hq as [Hq _].
      destruct (outline_body_bounds _ Hq) as [H1 H2].
      destruct (outline_body_box _ Hq) as [H3 H4].
      unfold mirror in E; injection E as <- <-.
      rewrite Rabs_Ropp, Rabs_right by lra; lra.
  - exists (sqrt (2150 ^ 2 - (3156 - 2150) ^ 2)), 3156; split.
    + apply in_create_accurate_clearance; right; left.
      unfold outline_body.
      apply in_or_app; right; apply in_or_app; right.
      apply in_or_app; right; apply in_or_app; left.
      unfold arc_points; apply in_flat_map.
      exists (3156 + INR 0 * ((3823 - 3156) / INR (100 - 1))); split.
      * unfold linspace.
        apply (in_map (fun i => 3156 + INR i * ((3823 - 3156) / INR (100 - 1)))).
        apply in_seq; lia.
      * replace (3156 + INR 0 * ((3823 - 3156) / INR (100 - 1))) with 3156
          by (cbn [INR]; lra).
        destruct (Rle_dec 0 (2150 ^ 2 - (3156 - 2150) ^ 2)); [| lra].
        left; reflexivity.
    + apply sqrt_above; lra.
Qed.

(** ** class NumericKeypad: the display text *)

Import NumericKeypad.

Lemma removelast_keeps (P : N -> Prop) (l : list N) :
  Forall P l -> Forall P (removelast l).
Proof.
  induction 1 as [| a l Ha Hl IH]; [constructor|].
  cbn [removelast]; destruct l; [constructor|].
  constructor; assumption.
Qed.

Lemma removelast_count (x : N) (l : list N) :
  (count_occ N.eq_dec (removelast l) x <= count_occ N.eq_dec l x)%nat.
Proof.
  induction l as [| a l IH]; [cbn; lia|].
  cbn [removelast]; destruct l as [| b l'].
  - cbn; destruct (N.eq_dec a x); lia.
  - cbn [count_occ] in *; destruct (N.eq_dec a x); lia.
Qed.

Lemma display_body_snoc (current : pystr) (c : N) :
  c <> char_minus ->
  display_body (current ++ [c]) = display_body current ++ [c].
Proof.
  intros Hc; unfold display_body, startswith_minus.
  destruct current as [| a r]; cbn [app tl].
  - apply N.eqb_neq in Hc; rewrite Hc; reflexivity.
  - destruct (N.eqb a char_minus); reflexivity.
Qed.

Lemma digit_or_dot_not_minus (c : N) : digit_or_dot c -> c <> char_minus.
Proof. unfold digit_or_dot, char_dot, char_minus; lia. Qed.

Lemma display_ok_snoc (current : pystr) (c : N) :
  display_ok current -> digit_or_dot c ->
  (c = char_dot -> existsb (N.eqb char_dot) current = false) ->
  display_ok (current ++ [c]).
Proof.
  intros [HF HC] Hc Hdot; unfold display_ok.
  rewrite display_body_snoc by (apply digit_or_dot_not_minus; exact Hc).
  split; [apply Forall_app; split; [exact HF | constructor; [exact Hc | constructor]]|].
  rewrite count_occ_app; cbn [count_occ].
  destruct (N.eq_dec c char_dot) as [E | _]; [| lia].
  specialize (Hdot E).
  assert (Hn : ~ In char_dot (display_body current)).
  { intros Hin.
    assert (Hin' : In char_dot current).
    { unfold display_body in Hin.
      destruct (startswith_minus current); [| exact Hin].
      destruct current; [destruct Hin | right; exact Hin]. }
    assert (Ht : existsb (N.eqb char_dot) current = true).
    { apply existsb_exists; exists char_dot; split;
        [exact Hin' | apply N.eqb_refl]. }
    rewrite Ht in Hdot; discriminate Hdot. }
  apply (count_occ_not_In N.eq_dec) in Hn; lia.
Qed.

Lemma display_ok_single (c : N) :
  digit_or_dot c -> c <> char_dot -> display_ok [c].
Proof.
  intros Hc Hd; unfold display_ok, display_body, startswith_minus.
  pose proof (digit_or_dot_not_minus c Hc) as Hm.
  apply N.eqb_neq in Hm; rewrite Hm; split.
  - constructor; [exact Hc | constructor].
  - cbn [count_occ]; destruct (N.eq_dec c char_dot); [contradiction | lia].
Qed.

(** X24: from a display of the normal shape (an optional leading minus,
    then digits with at most one decimal point) every key leaves a display
    of that shape; the cleared display "0" has it. *)
Theorem keypad_display_stays_well_formed
        (allow_negative : bool) (text : button) (current : pystr) :
  display_ok current -> real_key text ->
  display_ok (button_click allow_negative text current)
  /\ display_ok [char_zero].
Proof.
  intros Hok Hkey.
  assert (Hzero : display_ok [char_zero]).
  { apply display_ok_single; [left | ]; unfold char_zero, char_dot; lia. }
  split; [| exact Hzero].
  destruct text; cbn [button_click].
  - exact Hzero.
  - (* sign *)
    destruct allow_negative; [| exact Hok].
    destruct (pystr_eqb current [char_zero]); cbn [negb]; [exact Hok|].
    destruct Hok as [HF HC]; unfold display_ok, display_body in *.
    destruct (startswith_minus current) eqn:Es.
    + assert (En : startswith_minus (tl current) = false).
      { unfold startswith_minus; destruct (tl current) as [| b r]; [reflexivity|].
        apply N.eqb_neq, digit_or_dot_not_minus.
        inversion HF; assumption. }
      rewrite En; split; assumption.
    + cbn [startswith_minus tl]; rewrite N.eqb_refl; split; assumption.
  - (* backspace *)
    destruct (1 <? List.length current)%nat eqn:El; [| exact Hzero].
    apply Nat.ltb_lt in El.
    destruct current as [| a [| b r]]; cbn [List.length] in El; try lia.
    destruct Hok as [HF HC]; unfold display_ok, display_body in *.
    cbn [startswith_minus tl] in *.
    change (removelast (a :: b :: r)) with (a :: removelast (b :: r)).
    cbn [startswith_minus tl].
    destruct (N.eqb a char_minus).
    + split; [apply removelast_keeps; exact HF|].
      pose proof (removelast_count char_dot (b :: r)); lia.
    + change (a :: removelast (b :: r)) with (removelast (a :: b :: r)).
      split; [apply removelast_keeps; exact HF|].
      pose proof (removelast_count char_dot (a :: b :: r)); lia.
  - (* digit *)
    cbn [real_key] in Hkey.
    assert (Hd : digit_or_dot (char_zero + d)).
    { left; unfold char_zero; lia. }
    assert (Hnd : (char_zero + d)%N = char_dot -> False).
    { unfold char_zero, char_dot; lia. }
    destruct (pystr_eqb current [char_zero]).
    + unfold digit_text; apply display_ok_single; [exact Hd|].
      intros E; exact (Hnd E).
    + apply display_ok_snoc; [exact Hok | exact Hd | tauto].
  - (* decimal point *)
    destruct (existsb (N.eqb char_dot) current) eqn:Ee; cbn [negb];
      [exact Hok|].
    apply display_ok_snoc; [exact Hok | right; reflexivity | intros _; exact Ee].
  - exact Hok.
Qed.

Lemma keypad_display_stays_well_formed_witness :
  display_ok [char_minus; 53%N] /\ real_key BtnDot /\
  display_ok (button_click true BtnDot [char_minus; 53%N]).
Proof.
  assert (H : display_ok [char_minus; 53%N]).
  { unfold display_ok, display_body; cbn [startswith_minus tl].
    rewrite N.eqb_refl; apply (display_ok_single 53%N);
      [left | unfold char_dot]; lia. }
  split; [exact H|]; split; [exact I|].
  apply (keypad_display_stays_well_formed true BtnDot [char_minus; 53%N] H I).
Defined.

(** X25: a display that is not empty can only become empty in one way: the
    sign key, where negative values are allowed, pressed on a display that
    is just "-".  Clear, backspace, the digits and the decimal point never
    empty it. *)
Theorem keypad_display_emptied_only_by_sign
        (allow_negative : bool) (text : button) (current : pystr) :
  current <> [] ->
  (button_click allow_negative text current = []
   <-> text = BtnSign /\ allow_negative = true /\ current = [char_minus]).
Proof.
  intros Hne; split.
  - destruct text; cbn [button_click]; intros H.
    + discriminate H.
    + destruct allow_negative; [| contradiction].
      destruct (pystr_eqb current [char_zero]); cbn [negb] in H;
        [contradiction|].
      destruct (startswith_minus current) eqn:Es; [| discriminate H].
      destruct current as [| a r]; [contradiction|].
      cbn [tl] in H; subst r.
      cbn [startswith_minus] in Es; apply N.eqb_eq in Es; subst a.
      repeat split.
    + destruct (1 <? List.length current)%nat eqn:El; [| discriminate H].
      apply Nat.ltb_lt in El.
      destruct current as [| a [| b r]]; cbn [List.length] in El; try lia.
      change (removelast (a :: b :: r)) with (a :: removelast (b :: r)) in H.
      discriminate H.
    + destruct (pystr_eqb current [char_zero]); [discriminate H|].
      apply app_eq_nil in H; destruct H as [_ H]; discriminate H.
    + destruct (existsb (N.eqb char_dot) current); cbn [negb] in H;
        [contradiction|].
      apply app_eq_nil in H; destruct H as [_ H]; discriminate H.
    + contradiction.
  - intros [-> [-> ->]]; reflexivity.
Qed.

Lemma keypad_display_emptied_only_by_sign_witness :
  [char_minus] <> [] /\ button_click true BtnSign [char_minus] = [].
Proof.
  assert (H : [char_minus] <> ([] : pystr)) by discriminate.
  split; [exact H|].
  apply (keypad_display_emptied_only_by_sign true BtnSign [char_minus] H).
  repeat split.
Defined.
